(** * go-rue: chain configuration and node service

    A shallow embedding of [params/config.go] (fork schedule, activation
    predicates, compatibility check) and of the parts of [rue/backend.go]
    that select the consensus engine and resolve the default beneficiary
    ([Ruebase]).

    Conventions.
    - A Go [*big.Int] is an [option Z]: [None] is the nil pointer.
    - A Go [uint64] is a [Z] in the range [0 <= x < 2^64]; arithmetic on
      it wraps modulo [2^64] and the wrap is written out.
    - A Go [string] is a [string]. *)

From Stdlib Require Import ZArith List String Bool Lia.
Import ListNotations.

Local Open Scope Z_scope.

(** ** Machine integers *)

Definition uint64_modulus : Z := 2 ^ 64.

Definition is_uint64 (x : Z) : Prop := 0 <= x < uint64_modulus.

(** [big.Int.Uint64]: the low 64 bits of the absolute value. *)
Definition Uint64 (x : Z) : Z := Z.abs x mod uint64_modulus.

(** Subtraction on [uint64], wrapping around. *)
Definition uint64_sub (x y : Z) : Z := (x - y) mod uint64_modulus.

(** [big.Int.Sign]. *)
Definition Sign (x : Z) : Z := Z.sgn x.

(** [x.Cmp(y)]: -1, 0 or 1. *)
Definition Cmp (x y : Z) : Z :=
  match x ?= y with
  | Lt => -1
  | Eq => 0
  | Gt => 1
  end.

Module Params.

(** *** Consensus engine sub-configurations *)

(** [type EthashConfig struct{}] *)
Record EthashConfig : Type := mkEthashConfig { }.

(** [type CliqueConfig struct { Period uint64; Epoch uint64 }] *)
Record CliqueConfig : Type := mkCliqueConfig {
  Period : Z;
  Epoch : Z
}.

(** *** The chain configuration

    The fields are those the source reads: the ones the struct declares
    ([ChainId], [HomesteadBlock], [DAOForkBlock], [DAOForkSupport], the
    EIP blocks, [ByzantiumBlock], [Ethash], [Clique]) and the per-fork
    blocks that [MainnetChainConfig], [String] and the [Is*] accessors
    name. *)
Record ChainConfig : Type := mkChainConfig {
  ChainId : option Z;
  HomesteadBlock : option Z;
  FrontierBlock : option Z;
  HorizonBlock : option Z;
  HopeBlock : option Z;
  SettlementBlock : option Z;
  ByzantiumBlock : option Z;
  DunedinBlock : option Z;
  BerlinBlock : option Z;
  PekingBlock : option Z;
  RennisanceBlock : option Z;
  EdinburghBlock : option Z;
  KitchenerBlock : option Z;
  WaterlooBlock : option Z;
  KyotoBlock : option Z;
  InstanbulBlock : option Z;
  NovaBlock : option Z;
  SolBlock : option Z;
  ChenXingBlock : option Z;
  TaihakuseiBlock : option Z;
  SaoHaoBlock : option Z;
  JupiterBlock : option Z;
  PlutoBlock : option Z;
  MilkyWayBlock : option Z;
  AndromedaBlock : option Z;
  BodesBlock : option Z;
  HoagsBlock : option Z;
  MayallsBlock : option Z;
  ThalesBlock : option Z;
  PythagorasBlock : option Z;
  ParmenidesBlock : option Z;
  ZenoBlock : option Z;
  SocratesBlock : option Z;
  PlatoBlock : option Z;
  CiceroBlock : option Z;
  AquinasBlock : option Z;
  DescartesBlock : option Z;
  HobbesBlock : option Z;
  SpinozaBlock : option Z;
  LockeBlock : option Z;
  NewtonBlock : option Z;
  LeibnizBlock : option Z;
  VoltaireBlock : option Z;
  HumeBlock : option Z;
  RousseauBlock : option Z;
  SmithBlock : option Z;
  KantBlock : option Z;
  ButerinBlock : option Z;
  DAOForkBlock : option Z;
  DAOForkSupport : bool;
  EIP150Block : option Z;
  EIP150Hash : Z;
  EIP155Block : option Z;
  EIP158Block : option Z;
  Ethash : option EthashConfig;
  Clique : option CliqueConfig
}.

(** A configuration with nothing scheduled, and field updates, used to
    write concrete configurations. *)
Definition emptyConfig : ChainConfig :=
  {| ChainId := None; HomesteadBlock := None; FrontierBlock := None;
     HorizonBlock := None; HopeBlock := None; SettlementBlock := None;
     ByzantiumBlock := None; DunedinBlock := None; BerlinBlock := None;
     PekingBlock := None; RennisanceBlock := None; EdinburghBlock := None;
     KitchenerBlock := None; WaterlooBlock := None; KyotoBlock := None;
     InstanbulBlock := None; NovaBlock := None; SolBlock := None;
     ChenXingBlock := None; TaihakuseiBlock := None; SaoHaoBlock := None;
     JupiterBlock := None; PlutoBlock := None; MilkyWayBlock := None;
     AndromedaBlock := None; BodesBlock := None; HoagsBlock := None;
     MayallsBlock := None; ThalesBlock := None; PythagorasBlock := None;
     ParmenidesBlock := None; ZenoBlock := None; SocratesBlock := None;
     PlatoBlock := None; CiceroBlock := None; AquinasBlock := None;
     DescartesBlock := None; HobbesBlock := None; SpinozaBlock := None;
     LockeBlock := None; NewtonBlock := None; LeibnizBlock := None;
     VoltaireBlock := None; HumeBlock := None; RousseauBlock := None;
     SmithBlock := None; KantBlock := None; ButerinBlock := None;
     DAOForkBlock := None; DAOForkSupport := false; EIP150Block := None;
     EIP150Hash := 0; EIP155Block := None; EIP158Block := None;
     Ethash := None; Clique := None |}.

Definition set_HomesteadBlock (v : option Z) (c : ChainConfig) : ChainConfig :=
  {| ChainId := ChainId c; HomesteadBlock := v;
     FrontierBlock := FrontierBlock c; HorizonBlock := HorizonBlock c;
     HopeBlock := HopeBlock c; SettlementBlock := SettlementBlock c;
     ByzantiumBlock := ByzantiumBlock c; DunedinBlock := DunedinBlock c;
     BerlinBlock := BerlinBlock c; PekingBlock := PekingBlock c;
     RennisanceBlock := RennisanceBlock c;
     EdinburghBlock := EdinburghBlock c; KitchenerBlock := KitchenerBlock c;
     WaterlooBlock := WaterlooBlock c; KyotoBlock := KyotoBlock c;
     InstanbulBlock := InstanbulBlock c; NovaBlock := NovaBlock c;
     SolBlock := SolBlock c; ChenXingBlock := ChenXingBlock c;
     TaihakuseiBlock := TaihakuseiBlock c; SaoHaoBlock := SaoHaoBlock c;
     JupiterBlock := JupiterBlock c; PlutoBlock := PlutoBlock c;
     MilkyWayBlock := MilkyWayBlock c; AndromedaBlock := AndromedaBlock c;
     BodesBlock := BodesBlock c; HoagsBlock := HoagsBlock c;
     MayallsBlock := MayallsBlock c; ThalesBlock := ThalesBlock c;
     PythagorasBlock := PythagorasBlock c;
     ParmenidesBlock := ParmenidesBlock c; ZenoBlock := ZenoBlock c;
     SocratesBlock := SocratesBlock c; PlatoBlock := PlatoBlock c;
     CiceroBlock := CiceroBlock c; AquinasBlock := AquinasBlock c;
     DescartesBlock := DescartesBlock c; HobbesBlock := HobbesBlock c;
     SpinozaBlock := SpinozaBlock c; LockeBlock := LockeBlock c;
     NewtonBlock := NewtonBlock c; LeibnizBlock := LeibnizBlock c;
     VoltaireBlock := VoltaireBlock c; HumeBlock := HumeBlock c;
     RousseauBlock := RousseauBlock c; SmithBlock := SmithBlock c;
     KantBlock := KantBlock c; ButerinBlock := ButerinBlock c;
     DAOForkBlock := DAOForkBlock c; DAOForkSupport := DAOForkSupport c;
     EIP150Block := EIP150Block c; EIP150Hash := EIP150Hash c;
     EIP155Block := EIP155Block c; EIP158Block := EIP158Block c;
     Ethash := Ethash c; Clique := Clique c |}.

Definition set_FrontierBlock (v : option Z) (c : ChainConfig) : ChainConfig :=
  {| ChainId := ChainId c; HomesteadBlock := HomesteadBlock c;
     FrontierBlock := v; HorizonBlock := HorizonBlock c;
     HopeBlock := HopeBlock c; SettlementBlock := SettlementBlock c;
     ByzantiumBlock := ByzantiumBlock c; DunedinBlock := DunedinBlock c;
     BerlinBlock := BerlinBlock c; PekingBlock := PekingBlock c;
     RennisanceBlock := RennisanceBlock c;
     EdinburghBlock := EdinburghBlock c; KitchenerBlock := KitchenerBlock c;
     WaterlooBlock := WaterlooBlock c; KyotoBlock := KyotoBlock c;
     InstanbulBlock := InstanbulBlock c; NovaBlock := NovaBlock c;
     SolBlock := SolBlock c; ChenXingBlock := ChenXingBlock c;
     TaihakuseiBlock := TaihakuseiBlock c; SaoHaoBlock := SaoHaoBlock c;
     JupiterBlock := JupiterBlock c; PlutoBlock := PlutoBlock c;
     MilkyWayBlock := MilkyWayBlock c; AndromedaBlock := AndromedaBlock c;
     BodesBlock := BodesBlock c; HoagsBlock := HoagsBlock c;
     MayallsBlock := MayallsBlock c; ThalesBlock := ThalesBlock c;
     PythagorasBlock := PythagorasBlock c;
     ParmenidesBlock := ParmenidesBlock c; ZenoBlock := ZenoBlock c;
     SocratesBlock := SocratesBlock c; PlatoBlock := PlatoBlock c;
     CiceroBlock := CiceroBlock c; AquinasBlock := AquinasBlock c;
     DescartesBlock := DescartesBlock c; HobbesBlock := HobbesBlock c;
     SpinozaBlock := SpinozaBlock c; LockeBlock := LockeBlock c;
     NewtonBlock := NewtonBlock c; LeibnizBlock := LeibnizBlock c;
     VoltaireBlock := VoltaireBlock c; HumeBlock := HumeBlock c;
     RousseauBlock := RousseauBlock c; SmithBlock := SmithBlock c;
     KantBlock := KantBlock c; ButerinBlock := ButerinBlock c;
     DAOForkBlock := DAOForkBlock c; DAOForkSupport := DAOForkSupport c;
     EIP150Block := EIP150Block c; EIP150Hash := EIP150Hash c;
     EIP155Block := EIP155Block c; EIP158Block := EIP158Block c;
     Ethash := Ethash c; Clique := Clique c |}.

Definition set_SaoHaoBlock (v : option Z) (c : ChainConfig) : ChainConfig :=
  {| ChainId := ChainId c; HomesteadBlock := HomesteadBlock c;
     FrontierBlock := FrontierBlock c; HorizonBlock := HorizonBlock c;
     HopeBlock := HopeBlock c; SettlementBlock := SettlementBlock c;
     ByzantiumBlock := ByzantiumBlock c; DunedinBlock := DunedinBlock c;
     BerlinBlock := BerlinBlock c; PekingBlock := PekingBlock c;
     RennisanceBlock := RennisanceBlock c;
     EdinburghBlock := EdinburghBlock c; KitchenerBlock := KitchenerBlock c;
     WaterlooBlock := WaterlooBlock c; KyotoBlock := KyotoBlock c;
     InstanbulBlock := InstanbulBlock c; NovaBlock := NovaBlock c;
     SolBlock := SolBlock c; ChenXingBlock := ChenXingBlock c;
     TaihakuseiBlock := TaihakuseiBlock c; SaoHaoBlock := v;
     JupiterBlock := JupiterBlock c; PlutoBlock := PlutoBlock c;
     MilkyWayBlock := MilkyWayBlock c; AndromedaBlock := AndromedaBlock c;
     BodesBlock := BodesBlock c; HoagsBlock := HoagsBlock c;
     MayallsBlock := MayallsBlock c; ThalesBlock := ThalesBlock c;
     PythagorasBlock := PythagorasBlock c;
     ParmenidesBlock := ParmenidesBlock c; ZenoBlock := ZenoBlock c;
     SocratesBlock := SocratesBlock c; PlatoBlock := PlatoBlock c;
     CiceroBlock := CiceroBlock c; AquinasBlock := AquinasBlock c;
     DescartesBlock := DescartesBlock c; HobbesBlock := HobbesBlock c;
     SpinozaBlock := SpinozaBlock c; LockeBlock := LockeBlock c;
     NewtonBlock := NewtonBlock c; LeibnizBlock := LeibnizBlock c;
     VoltaireBlock := VoltaireBlock c; HumeBlock := HumeBlock c;
     RousseauBlock := RousseauBlock c; SmithBlock := SmithBlock c;
     KantBlock := KantBlock c; ButerinBlock := ButerinBlock c;
     DAOForkBlock := DAOForkBlock c; DAOForkSupport := DAOForkSupport c;
     EIP150Block := EIP150Block c; EIP150Hash := EIP150Hash c;
     EIP155Block := EIP155Block c; EIP158Block := EIP158Block c;
     Ethash := Ethash c; Clique := Clique c |}.

Definition set_DAOForkBlock (v : option Z) (c : ChainConfig) : ChainConfig :=
  {| ChainId := ChainId c; HomesteadBlock := HomesteadBlock c;
     FrontierBlock := FrontierBlock c; HorizonBlock := HorizonBlock c;
     HopeBlock := HopeBlock c; SettlementBlock := SettlementBlock c;
     ByzantiumBlock := ByzantiumBlock c; DunedinBlock := DunedinBlock c;
     BerlinBlock := BerlinBlock c; PekingBlock := PekingBlock c;
     RennisanceBlock := RennisanceBlock c;
     EdinburghBlock := EdinburghBlock c; KitchenerBlock := KitchenerBlock c;
     WaterlooBlock := WaterlooBlock c; KyotoBlock := KyotoBlock c;
     InstanbulBlock := InstanbulBlock c; NovaBlock := NovaBlock c;
     SolBlock := SolBlock c; ChenXingBlock := ChenXingBlock c;
     TaihakuseiBlock := TaihakuseiBlock c; SaoHaoBlock := SaoHaoBlock c;
     JupiterBlock := JupiterBlock c; PlutoBlock := PlutoBlock c;
     MilkyWayBlock := MilkyWayBlock c; AndromedaBlock := AndromedaBlock c;
     BodesBlock := BodesBlock c; HoagsBlock := HoagsBlock c;
     MayallsBlock := MayallsBlock c; ThalesBlock := ThalesBlock c;
     PythagorasBlock := PythagorasBlock c;
     ParmenidesBlock := ParmenidesBlock c; ZenoBlock := ZenoBlock c;
     SocratesBlock := SocratesBlock c; PlatoBlock := PlatoBlock c;
     CiceroBlock := CiceroBlock c; AquinasBlock := AquinasBlock c;
     DescartesBlock := DescartesBlock c; HobbesBlock := HobbesBlock c;
     SpinozaBlock := SpinozaBlock c; LockeBlock := LockeBlock c;
     NewtonBlock := NewtonBlock c; LeibnizBlock := LeibnizBlock c;
     VoltaireBlock := VoltaireBlock c; HumeBlock := HumeBlock c;
     RousseauBlock := RousseauBlock c; SmithBlock := SmithBlock c;
     KantBlock := KantBlock c; ButerinBlock := ButerinBlock c;
     DAOForkBlock := v; DAOForkSupport := DAOForkSupport c;
     EIP150Block := EIP150Block c; EIP150Hash := EIP150Hash c;
     EIP155Block := EIP155Block c; EIP158Block := EIP158Block c;
     Ethash := Ethash c; Clique := Clique c |}.

Definition set_ChainId (v : option Z) (c : ChainConfig) : ChainConfig :=
  {| ChainId := v; HomesteadBlock := HomesteadBlock c;
     FrontierBlock := FrontierBlock c; HorizonBlock := HorizonBlock c;
     HopeBlock := HopeBlock c; SettlementBlock := SettlementBlock c;
     ByzantiumBlock := ByzantiumBlock c; DunedinBlock := DunedinBlock c;
     BerlinBlock := BerlinBlock c; PekingBlock := PekingBlock c;
     RennisanceBlock := RennisanceBlock c;
     EdinburghBlock := EdinburghBlock c; KitchenerBlock := KitchenerBlock c;
     WaterlooBlock := WaterlooBlock c; KyotoBlock := KyotoBlock c;
     InstanbulBlock := InstanbulBlock c; NovaBlock := NovaBlock c;
     SolBlock := SolBlock c; ChenXingBlock := ChenXingBlock c;
     TaihakuseiBlock := TaihakuseiBlock c; SaoHaoBlock := SaoHaoBlock c;
     JupiterBlock := JupiterBlock c; PlutoBlock := PlutoBlock c;
     MilkyWayBlock := MilkyWayBlock c; AndromedaBlock := AndromedaBlock c;
     BodesBlock := BodesBlock c; HoagsBlock := HoagsBlock c;
     MayallsBlock := MayallsBlock c; ThalesBlock := ThalesBlock c;
     PythagorasBlock := PythagorasBlock c;
     ParmenidesBlock := ParmenidesBlock c; ZenoBlock := ZenoBlock c;
     SocratesBlock := SocratesBlock c; PlatoBlock := PlatoBlock c;
     CiceroBlock := CiceroBlock c; AquinasBlock := AquinasBlock c;
     DescartesBlock := DescartesBlock c; HobbesBlock := HobbesBlock c;
     SpinozaBlock := SpinozaBlock c; LockeBlock := LockeBlock c;
     NewtonBlock := NewtonBlock c; LeibnizBlock := LeibnizBlock c;
     VoltaireBlock := VoltaireBlock c; HumeBlock := HumeBlock c;
     RousseauBlock := RousseauBlock c; SmithBlock := SmithBlock c;
     KantBlock := KantBlock c; ButerinBlock := ButerinBlock c;
     DAOForkBlock := DAOForkBlock c; DAOForkSupport := DAOForkSupport c;
     EIP150Block := EIP150Block c; EIP150Hash := EIP150Hash c;
     EIP155Block := EIP155Block c; EIP158Block := EIP158Block c;
     Ethash := Ethash c; Clique := Clique c |}.

Definition set_DAOForkSupport (v : bool) (c : ChainConfig) : ChainConfig :=
  {| ChainId := ChainId c; HomesteadBlock := HomesteadBlock c;
     FrontierBlock := FrontierBlock c; HorizonBlock := HorizonBlock c;
     HopeBlock := HopeBlock c; SettlementBlock := SettlementBlock c;
     ByzantiumBlock := ByzantiumBlock c; DunedinBlock := DunedinBlock c;
     BerlinBlock := BerlinBlock c; PekingBlock := PekingBlock c;
     RennisanceBlock := RennisanceBlock c;
     EdinburghBlock := EdinburghBlock c; KitchenerBlock := KitchenerBlock c;
     WaterlooBlock := WaterlooBlock c; KyotoBlock := KyotoBlock c;
     InstanbulBlock := InstanbulBlock c; NovaBlock := NovaBlock c;
     SolBlock := SolBlock c; ChenXingBlock := ChenXingBlock c;
     TaihakuseiBlock := TaihakuseiBlock c; SaoHaoBlock := SaoHaoBlock c;
     JupiterBlock := JupiterBlock c; PlutoBlock := PlutoBlock c;
     MilkyWayBlock := MilkyWayBlock c; AndromedaBlock := AndromedaBlock c;
     BodesBlock := BodesBlock c; HoagsBlock := HoagsBlock c;
     MayallsBlock := MayallsBlock c; ThalesBlock := ThalesBlock c;
     PythagorasBlock := PythagorasBlock c;
     ParmenidesBlock := ParmenidesBlock c; ZenoBlock := ZenoBlock c;
     SocratesBlock := SocratesBlock c; PlatoBlock := PlatoBlock c;
     CiceroBlock := CiceroBlock c; AquinasBlock := AquinasBlock c;
     DescartesBlock := DescartesBlock c; HobbesBlock := HobbesBlock c;
     SpinozaBlock := SpinozaBlock c; LockeBlock := LockeBlock c;
     NewtonBlock := NewtonBlock c; LeibnizBlock := LeibnizBlock c;
     VoltaireBlock := VoltaireBlock c; HumeBlock := HumeBlock c;
     RousseauBlock := RousseauBlock c; SmithBlock := SmithBlock c;
     KantBlock := KantBlock c; ButerinBlock := ButerinBlock c;
     DAOForkBlock := DAOForkBlock c; DAOForkSupport := v;
     EIP150Block := EIP150Block c; EIP150Hash := EIP150Hash c;
     EIP155Block := EIP155Block c; EIP158Block := EIP158Block c;
     Ethash := Ethash c; Clique := Clique c |}.

Definition set_EIP158Block (v : option Z) (c : ChainConfig) : ChainConfig :=
  {| ChainId := ChainId c; HomesteadBlock := HomesteadBlock c;
     FrontierBlock := FrontierBlock c; HorizonBlock := HorizonBlock c;
     HopeBlock := HopeBlock c; SettlementBlock := SettlementBlock c;
     ByzantiumBlock := ByzantiumBlock c; DunedinBlock := DunedinBlock c;
     BerlinBlock := BerlinBlock c; PekingBlock := PekingBlock c;
     RennisanceBlock := RennisanceBlock c;
     EdinburghBlock := EdinburghBlock c; KitchenerBlock := KitchenerBlock c;
     WaterlooBlock := WaterlooBlock c; KyotoBlock := KyotoBlock c;
     InstanbulBlock := InstanbulBlock c; NovaBlock := NovaBlock c;
     SolBlock := SolBlock c; ChenXingBlock := ChenXingBlock c;
     TaihakuseiBlock := TaihakuseiBlock c; SaoHaoBlock := SaoHaoBlock c;
     JupiterBlock := JupiterBlock c; PlutoBlock := PlutoBlock c;
     MilkyWayBlock := MilkyWayBlock c; AndromedaBlock := AndromedaBlock c;
     BodesBlock := BodesBlock c; HoagsBlock := HoagsBlock c;
     MayallsBlock := MayallsBlock c; ThalesBlock := ThalesBlock c;
     PythagorasBlock := PythagorasBlock c;
     ParmenidesBlock := ParmenidesBlock c; ZenoBlock := ZenoBlock c;
     SocratesBlock := SocratesBlock c; PlatoBlock := PlatoBlock c;
     CiceroBlock := CiceroBlock c; AquinasBlock := AquinasBlock c;
     DescartesBlock := DescartesBlock c; HobbesBlock := HobbesBlock c;
     SpinozaBlock := SpinozaBlock c; LockeBlock := LockeBlock c;
     NewtonBlock := NewtonBlock c; LeibnizBlock := LeibnizBlock c;
     VoltaireBlock := VoltaireBlock c; HumeBlock := HumeBlock c;
     RousseauBlock := RousseauBlock c; SmithBlock := SmithBlock c;
     KantBlock := KantBlock c; ButerinBlock := ButerinBlock c;
     DAOForkBlock := DAOForkBlock c; DAOForkSupport := DAOForkSupport c;
     EIP150Block := EIP150Block c; EIP150Hash := EIP150Hash c;
     EIP155Block := EIP155Block c; EIP158Block := v; Ethash := Ethash c;
     Clique := Clique c |}.

Definition set_Clique (v : option CliqueConfig) (c : ChainConfig)
  : ChainConfig :=
  {| ChainId := ChainId c; HomesteadBlock := HomesteadBlock c;
     FrontierBlock := FrontierBlock c; HorizonBlock := HorizonBlock c;
     HopeBlock := HopeBlock c; SettlementBlock := SettlementBlock c;
     ByzantiumBlock := ByzantiumBlock c; DunedinBlock := DunedinBlock c;
     BerlinBlock := BerlinBlock c; PekingBlock := PekingBlock c;
     RennisanceBlock := RennisanceBlock c;
     EdinburghBlock := EdinburghBlock c; KitchenerBlock := KitchenerBlock c;
     WaterlooBlock := WaterlooBlock c; KyotoBlock := KyotoBlock c;
     InstanbulBlock := InstanbulBlock c; NovaBlock := NovaBlock c;
     SolBlock := SolBlock c; ChenXingBlock := ChenXingBlock c;
     TaihakuseiBlock := TaihakuseiBlock c; SaoHaoBlock := SaoHaoBlock c;
     JupiterBlock := JupiterBlock c; PlutoBlock := PlutoBlock c;
     MilkyWayBlock := MilkyWayBlock c; AndromedaBlock := AndromedaBlock c;
     BodesBlock := BodesBlock c; HoagsBlock := HoagsBlock c;
     MayallsBlock := MayallsBlock c; ThalesBlock := ThalesBlock c;
     PythagorasBlock := PythagorasBlock c;
     ParmenidesBlock := ParmenidesBlock c; ZenoBlock := ZenoBlock c;
     SocratesBlock := SocratesBlock c; PlatoBlock := PlatoBlock c;
     CiceroBlock := CiceroBlock c; AquinasBlock := AquinasBlock c;
     DescartesBlock := DescartesBlock c; HobbesBlock := HobbesBlock c;
     SpinozaBlock := SpinozaBlock c; LockeBlock := LockeBlock c;
     NewtonBlock := NewtonBlock c; LeibnizBlock := LeibnizBlock c;
     VoltaireBlock := VoltaireBlock c; HumeBlock := HumeBlock c;
     RousseauBlock := RousseauBlock c; SmithBlock := SmithBlock c;
     KantBlock := KantBlock c; ButerinBlock := ButerinBlock c;
     DAOForkBlock := DAOForkBlock c; DAOForkSupport := DAOForkSupport c;
     EIP150Block := EIP150Block c; EIP150Hash := EIP150Hash c;
     EIP155Block := EIP155Block c; EIP158Block := EIP158Block c;
     Ethash := Ethash c; Clique := v |}.

(** *** Fork predicates *)

(** [isForked] returns whether a fork scheduled at block [s] is active at
    the given head block. *)
Definition isForked (s head : option Z) : bool :=
  match s, head with
  | None, _ => false
  | _, None => false
  | Some s, Some head => Cmp s head <=? 0
  end.

Definition configNumEqual (x y : option Z) : bool :=
  match x with
  | None => match y with None => true | Some _ => false end
  | Some x' =>
      match y with
      | None => false
      | Some y' => Cmp x' y' =? 0
      end
  end.

(** [isForkIncompatible] returns true if a fork scheduled at [s1] cannot
    be rescheduled to block [s2] because head is already past the fork. *)
Definition isForkIncompatible (s1 s2 head : option Z) : bool :=
  (isForked s1 head || isForked s2 head) && negb (configNumEqual s1 s2).

(** *** Per-fork accessors

    The source declares [IsFrontier] twice, with the same body (once
    where an accessor for [BodesBlock] would stand); it is given once
    here.  There is no accessor for [HomesteadBlock] or [BodesBlock]. *)
Definition IsFrontier (c : ChainConfig) (num : option Z) : bool :=
  isForked (FrontierBlock c) num.
Definition IsHorizon (c : ChainConfig) (num : option Z) : bool :=
  isForked (HorizonBlock c) num.
Definition IsHope (c : ChainConfig) (num : option Z) : bool :=
  isForked (HopeBlock c) num.
Definition IsSettlement (c : ChainConfig) (num : option Z) : bool :=
  isForked (SettlementBlock c) num.
Definition IsByzantium (c : ChainConfig) (num : option Z) : bool :=
  isForked (ByzantiumBlock c) num.
Definition IsDunedin (c : ChainConfig) (num : option Z) : bool :=
  isForked (DunedinBlock c) num.
Definition IsBerlin (c : ChainConfig) (num : option Z) : bool :=
  isForked (BerlinBlock c) num.
Definition IsPeking (c : ChainConfig) (num : option Z) : bool :=
  isForked (PekingBlock c) num.
Definition IsRennisance (c : ChainConfig) (num : option Z) : bool :=
  isForked (RennisanceBlock c) num.
Definition IsEdinburgh (c : ChainConfig) (num : option Z) : bool :=
  isForked (EdinburghBlock c) num.
Definition IsKitchener (c : ChainConfig) (num : option Z) : bool :=
  isForked (KitchenerBlock c) num.
Definition IsWaterloo (c : ChainConfig) (num : option Z) : bool :=
  isForked (WaterlooBlock c) num.
Definition IsKyoto (c : ChainConfig) (num : option Z) : bool :=
  isForked (KyotoBlock c) num.
Definition IsInstanbul (c : ChainConfig) (num : option Z) : bool :=
  isForked (InstanbulBlock c) num.
Definition IsNova (c : ChainConfig) (num : option Z) : bool :=
  isForked (NovaBlock c) num.
Definition IsSol (c : ChainConfig) (num : option Z) : bool :=
  isForked (SolBlock c) num.
Definition IsChenXing (c : ChainConfig) (num : option Z) : bool :=
  isForked (ChenXingBlock c) num.
Definition IsTaihakusei (c : ChainConfig) (num : option Z) : bool :=
  isForked (TaihakuseiBlock c) num.
Definition IsSaoHao (c : ChainConfig) (num : option Z) : bool :=
  isForked (FrontierBlock c) num.
Definition IsJupiter (c : ChainConfig) (num : option Z) : bool :=
  isForked (JupiterBlock c) num.
Definition IsPluto (c : ChainConfig) (num : option Z) : bool :=
  isForked (PlutoBlock c) num.
Definition IsMilkyWay (c : ChainConfig) (num : option Z) : bool :=
  isForked (MilkyWayBlock c) num.
Definition IsAndromeda (c : ChainConfig) (num : option Z) : bool :=
  isForked (AndromedaBlock c) num.
Definition IsHoags (c : ChainConfig) (num : option Z) : bool :=
  isForked (HoagsBlock c) num.
Definition IsMayalls (c : ChainConfig) (num : option Z) : bool :=
  isForked (MayallsBlock c) num.
Definition IsThales (c : ChainConfig) (num : option Z) : bool :=
  isForked (ThalesBlock c) num.
Definition IsPythagoras (c : ChainConfig) (num : option Z) : bool :=
  isForked (PythagorasBlock c) num.
Definition IsParmenides (c : ChainConfig) (num : option Z) : bool :=
  isForked (ParmenidesBlock c) num.
Definition IsZeno (c : ChainConfig) (num : option Z) : bool :=
  isForked (ZenoBlock c) num.
Definition IsSocrates (c : ChainConfig) (num : option Z) : bool :=
  isForked (SocratesBlock c) num.
Definition IsPlato (c : ChainConfig) (num : option Z) : bool :=
  isForked (PlatoBlock c) num.
Definition IsCicero (c : ChainConfig) (num : option Z) : bool :=
  isForked (CiceroBlock c) num.
Definition IsAquinas (c : ChainConfig) (num : option Z) : bool :=
  isForked (AquinasBlock c) num.
Definition IsDescartes (c : ChainConfig) (num : option Z) : bool :=
  isForked (DescartesBlock c) num.
Definition IsHobbes (c : ChainConfig) (num : option Z) : bool :=
  isForked (HobbesBlock c) num.
Definition IsSpinoza (c : ChainConfig) (num : option Z) : bool :=
  isForked (SpinozaBlock c) num.
Definition IsLocke (c : ChainConfig) (num : option Z) : bool :=
  isForked (LockeBlock c) num.
Definition IsNewton (c : ChainConfig) (num : option Z) : bool :=
  isForked (NewtonBlock c) num.
Definition IsLeibniz (c : ChainConfig) (num : option Z) : bool :=
  isForked (LeibnizBlock c) num.
Definition IsVoltaire (c : ChainConfig) (num : option Z) : bool :=
  isForked (VoltaireBlock c) num.
Definition IsHume (c : ChainConfig) (num : option Z) : bool :=
  isForked (HumeBlock c) num.
Definition IsRousseau (c : ChainConfig) (num : option Z) : bool :=
  isForked (RousseauBlock c) num.
Definition IsSmith (c : ChainConfig) (num : option Z) : bool :=
  isForked (SmithBlock c) num.
Definition IsKant (c : ChainConfig) (num : option Z) : bool :=
  isForked (KantBlock c) num.
Definition IsButerin (c : ChainConfig) (num : option Z) : bool :=
  isForked (ButerinBlock c) num.
Definition IsDAOFork (c : ChainConfig) (num : option Z) : bool :=
  isForked (DAOForkBlock c) num.
Definition IsEIP150 (c : ChainConfig) (num : option Z) : bool :=
  isForked (EIP150Block c) num.
Definition IsEIP155 (c : ChainConfig) (num : option Z) : bool :=
  isForked (EIP155Block c) num.
Definition IsEIP158 (c : ChainConfig) (num : option Z) : bool :=
  isForked (EIP158Block c) num.

(** The forks of the schedule, the block field each one names, and the
    accessor the source declares for it (none for [Homestead] and
    [Bodes]). *)
Inductive Fork : Type :=
  | Homestead | Frontier | Horizon | Hope | Settlement | Byzantium
  | Dunedin | Berlin | Peking | Rennisance | Edinburgh | Kitchener
  | Waterloo | Kyoto | Instanbul | Nova | Sol | ChenXing | Taihakusei
  | SaoHao | Jupiter | Pluto | MilkyWay | Andromeda | Bodes | Hoags
  | Mayalls | Thales | Pythagoras | Parmenides | Zeno | Socrates | Plato
  | Cicero | Aquinas | Descartes | Hobbes | Spinoza | Locke | Newton
  | Leibniz | Voltaire | Hume | Rousseau | Smith | Kant | Buterin | DAOFork
  | EIP150 | EIP155 | EIP158.

Definition scheduled (f : Fork) (c : ChainConfig) : option Z :=
  match f with
  | Homestead => HomesteadBlock c
  | Frontier => FrontierBlock c
  | Horizon => HorizonBlock c
  | Hope => HopeBlock c
  | Settlement => SettlementBlock c
  | Byzantium => ByzantiumBlock c
  | Dunedin => DunedinBlock c
  | Berlin => BerlinBlock c
  | Peking => PekingBlock c
  | Rennisance => RennisanceBlock c
  | Edinburgh => EdinburghBlock c
  | Kitchener => KitchenerBlock c
  | Waterloo => WaterlooBlock c
  | Kyoto => KyotoBlock c
  | Instanbul => InstanbulBlock c
  | Nova => NovaBlock c
  | Sol => SolBlock c
  | ChenXing => ChenXingBlock c
  | Taihakusei => TaihakuseiBlock c
  | SaoHao => SaoHaoBlock c
  | Jupiter => JupiterBlock c
  | Pluto => PlutoBlock c
  | MilkyWay => MilkyWayBlock c
  | Andromeda => AndromedaBlock c
  | Bodes => BodesBlock c
  | Hoags => HoagsBlock c
  | Mayalls => MayallsBlock c
  | Thales => ThalesBlock c
  | Pythagoras => PythagorasBlock c
  | Parmenides => ParmenidesBlock c
  | Zeno => ZenoBlock c
  | Socrates => SocratesBlock c
  | Plato => PlatoBlock c
  | Cicero => CiceroBlock c
  | Aquinas => AquinasBlock c
  | Descartes => DescartesBlock c
  | Hobbes => HobbesBlock c
  | Spinoza => SpinozaBlock c
  | Locke => LockeBlock c
  | Newton => NewtonBlock c
  | Leibniz => LeibnizBlock c
  | Voltaire => VoltaireBlock c
  | Hume => HumeBlock c
  | Rousseau => RousseauBlock c
  | Smith => SmithBlock c
  | Kant => KantBlock c
  | Buterin => ButerinBlock c
  | DAOFork => DAOForkBlock c
  | EIP150 => EIP150Block c
  | EIP155 => EIP155Block c
  | EIP158 => EIP158Block c
  end.

Definition accessor (f : Fork) : option (ChainConfig -> option Z -> bool) :=
  match f with
  | Homestead | Bodes => None
  | Frontier => Some IsFrontier
  | Horizon => Some IsHorizon
  | Hope => Some IsHope
  | Settlement => Some IsSettlement
  | Byzantium => Some IsByzantium
  | Dunedin => Some IsDunedin
  | Berlin => Some IsBerlin
  | Peking => Some IsPeking
  | Rennisance => Some IsRennisance
  | Edinburgh => Some IsEdinburgh
  | Kitchener => Some IsKitchener
  | Waterloo => Some IsWaterloo
  | Kyoto => Some IsKyoto
  | Instanbul => Some IsInstanbul
  | Nova => Some IsNova
  | Sol => Some IsSol
  | ChenXing => Some IsChenXing
  | Taihakusei => Some IsTaihakusei
  | SaoHao => Some IsSaoHao
  | Jupiter => Some IsJupiter
  | Pluto => Some IsPluto
  | MilkyWay => Some IsMilkyWay
  | Andromeda => Some IsAndromeda
  | Hoags => Some IsHoags
  | Mayalls => Some IsMayalls
  | Thales => Some IsThales
  | Pythagoras => Some IsPythagoras
  | Parmenides => Some IsParmenides
  | Zeno => Some IsZeno
  | Socrates => Some IsSocrates
  | Plato => Some IsPlato
  | Cicero => Some IsCicero
  | Aquinas => Some IsAquinas
  | Descartes => Some IsDescartes
  | Hobbes => Some IsHobbes
  | Spinoza => Some IsSpinoza
  | Locke => Some IsLocke
  | Newton => Some IsNewton
  | Leibniz => Some IsLeibniz
  | Voltaire => Some IsVoltaire
  | Hume => Some IsHume
  | Rousseau => Some IsRousseau
  | Smith => Some IsSmith
  | Kant => Some IsKant
  | Buterin => Some IsButerin
  | DAOFork => Some IsDAOFork
  | EIP150 => Some IsEIP150
  | EIP155 => Some IsEIP155
  | EIP158 => Some IsEIP158
  end.

(** The activation rule in the words of the specification: true iff the
    scheduled height is non-null and the height is at least it. *)
Definition isActive_spec (c : ChainConfig) (f : Fork) (height : Z) : bool :=
  match scheduled f c with
  | None => false
  | Some s => s <=? height
  end.

(** *** Compatibility errors *)

(** [ConfigCompatError] is raised if the locally-stored blockchain is
    initialised with a [ChainConfig] that would alter the past. *)
Record ConfigCompatError : Type := mkConfigCompatError {
  What : string;
  StoredConfig : option Z;
  NewConfig : option Z;
  RewindTo : Z
}.

(** The block [rew] that [newCompatError] selects. *)
Definition rewindBlock (storedblock newblock : option Z) : option Z :=
  match storedblock with
  | None => newblock
  | Some s =>
      match newblock with
      | None => storedblock
      | Some n => if Cmp s n <? 0 then storedblock else newblock
      end
  end.

Definition newCompatError (what : string) (storedblock newblock : option Z)
  : ConfigCompatError :=
  let rew := rewindBlock storedblock newblock in
  let err := mkConfigCompatError what storedblock newblock 0 in
  match rew with
  | Some r =>
      if Sign r >? 0
      then mkConfigCompatError (What err) (StoredConfig err) (NewConfig err)
             (uint64_sub (Uint64 r) 1)
      else err
  | None => err
  end.

Definition checkCompatible (c newcfg : ChainConfig) (head : option Z)
  : option ConfigCompatError :=
  if isForkIncompatible (HomesteadBlock c) (HomesteadBlock newcfg) head then
    Some (newCompatError "Homestead fork block"
            (HomesteadBlock c) (HomesteadBlock newcfg))
  else if isForkIncompatible (DAOForkBlock c) (DAOForkBlock newcfg) head then
    Some (newCompatError "DAO fork block"
            (DAOForkBlock c) (DAOForkBlock newcfg))
  else if IsDAOFork c head
          && negb (Bool.eqb (DAOForkSupport c) (DAOForkSupport newcfg)) then
    Some (newCompatError "DAO fork support flag"
            (DAOForkBlock c) (DAOForkBlock newcfg))
  else if isForkIncompatible (EIP150Block c) (EIP150Block newcfg) head then
    Some (newCompatError "EIP150 fork block"
            (EIP150Block c) (EIP150Block newcfg))
  else if isForkIncompatible (EIP155Block c) (EIP155Block newcfg) head then
    Some (newCompatError "EIP155 fork block"
            (EIP155Block c) (EIP155Block newcfg))
  else if isForkIncompatible (EIP158Block c) (EIP158Block newcfg) head then
    Some (newCompatError "EIP158 fork block"
            (EIP158Block c) (EIP158Block newcfg))
  else if IsEIP158 c head
          && negb (configNumEqual (ChainId c) (ChainId newcfg)) then
    Some (newCompatError "EIP158 chain ID"
            (EIP158Block c) (EIP158Block newcfg))
  else if isForkIncompatible (ByzantiumBlock c) (ByzantiumBlock newcfg) head
  then
    Some (newCompatError "Byzantium fork block"
            (ByzantiumBlock c) (ByzantiumBlock newcfg))
  else None.

(** *** The fixed-point iteration of [CheckCompatible]

    The state of the loop is the head [bhead] and [lasterr].  One
    execution of the loop body either leaves the loop with the value to
    return, or goes round with a new state. *)
Record LoopState : Type := mkLoopState {
  bhead : Z;
  lasterr : option ConfigCompatError
}.

Definition sameRewind (err : ConfigCompatError)
  (last : option ConfigCompatError) : bool :=
  match last with
  | None => false
  | Some l => RewindTo err =? RewindTo l
  end.

Definition loopBody (c newcfg : ChainConfig) (st : LoopState)
  : LoopState + option ConfigCompatError :=
  match checkCompatible c newcfg (Some (bhead st)) with
  | None => inr (lasterr st)
  | Some err =>
      if sameRewind err (lasterr st) then inr (lasterr st)
      else inl (mkLoopState (RewindTo err) (Some err))
  end.

(** The loop, where [fuel] bounds the number of times it goes round
    (the number of assignments to [lasterr] and [bhead]); [None] is
    running out of fuel. *)
Fixpoint CheckCompatible_loop (fuel : nat) (c newcfg : ChainConfig)
  (st : LoopState) : option (option ConfigCompatError) :=
  match loopBody c newcfg st with
  | inr result => Some result
  | inl st' =>
      match fuel with
      | O => None
      | S fuel' => CheckCompatible_loop fuel' c newcfg st'
      end
  end.

Definition CheckCompatible_fuel (fuel : nat) (c newcfg : ChainConfig)
  (height : Z) : option (option ConfigCompatError) :=
  CheckCompatible_loop fuel c newcfg (mkLoopState height None).

(** The fork boundaries that [checkCompatible] compares: Homestead, DAO,
    EIP150, EIP155, EIP158 and Byzantium. *)
Definition fork_boundary_count : nat := 6.

(** [CheckCompatible] checks whether scheduled fork transitions have been
    imported with a mismatching chain configuration.  The loop is run
    with [fork_boundary_count] rounds, which [CheckCompatible_fuel_enough]
    below shows is what every larger bound gives as well. *)
Definition CheckCompatible (c newcfg : ChainConfig) (height : Z)
  : option ConfigCompatError :=
  match CheckCompatible_fuel fork_boundary_count c newcfg height with
  | Some result => result
  | None => None
  end.

(** *** Fork boundaries

    [checkCompatible] compares six fork boundaries.  Each has the block
    of the stored and of the new configuration; the DAO and the EIP158
    boundary have one more comparison (the support flag, the chain
    identifier), made only when the stored fork is active at head:
    [gatedMismatch] says whether that comparison finds a difference. *)
Record Boundary : Type := mkBoundary {
  storedBlock : option Z;
  newBlock : option Z;
  gatedMismatch : bool
}.

Definition boundaries (c newcfg : ChainConfig) : list Boundary :=
  [ mkBoundary (HomesteadBlock c) (HomesteadBlock newcfg) false;
    mkBoundary (DAOForkBlock c) (DAOForkBlock newcfg)
      (negb (Bool.eqb (DAOForkSupport c) (DAOForkSupport newcfg)));
    mkBoundary (EIP150Block c) (EIP150Block newcfg) false;
    mkBoundary (EIP155Block c) (EIP155Block newcfg) false;
    mkBoundary (EIP158Block c) (EIP158Block newcfg)
      (negb (configNumEqual (ChainId c) (ChainId newcfg)));
    mkBoundary (ByzantiumBlock c) (ByzantiumBlock newcfg) false ].

(** A boundary conflicts at head [h] when one of its checks in
    [checkCompatible] holds there. *)
Definition conflict (b : Boundary) (h : Z) : bool :=
  isForkIncompatible (storedBlock b) (newBlock b) (Some h)
  || (isForked (storedBlock b) (Some h) && gatedMismatch b).

(** The rewind height of the error that a conflict at [b] raises. *)
Definition rewindOf (b : Boundary) : Z :=
  RewindTo (newCompatError EmptyString (storedBlock b) (newBlock b)).

(** What a boundary disagrees on, whatever the head. *)
Definition mismatch (b : Boundary) : Prop :=
  storedBlock b <> newBlock b \/ gatedMismatch b = true.

(** The error of a boundary, under whichever name the check has. *)
Definition raisedBy (e : ConfigCompatError) (b : Boundary) : Prop :=
  exists what, e = newCompatError what (storedBlock b) (newBlock b).

(** The number of boundaries that conflict at head [h]. *)
Definition conflictCount (c newcfg : ChainConfig) (h : Z) : nat :=
  List.length (filter (fun b => conflict b h) (boundaries c newcfg)).

(** The states the loop of [CheckCompatible] goes through from
    [height]. *)
Inductive reachable (c newcfg : ChainConfig) (height : Z)
  : LoopState -> Prop :=
  | reachable_init : reachable c newcfg height (mkLoopState height None)
  | reachable_step : forall st st',
      reachable c newcfg height st ->
      loopBody c newcfg st = inl st' ->
      reachable c newcfg height st'.

(** What the loop returns once [lasterr] is set: [lasterr] rewinds to
    the head it was found at. *)
Definition loopResult (c newcfg : ChainConfig) (h : Z)
  (le e : ConfigCompatError) : Prop :=
  RewindTo e <= h
  /\ (e = le \/ exists b, In b (boundaries c newcfg)
                          /\ conflict b h = true /\ raisedBy e b)
  /\ (forall b, In b (boundaries c newcfg) -> conflict b h = true ->
                RewindTo e <= rewindOf b).

(** Two configurations with the same fork blocks (those that
    [checkCompatible] compares) and the same chain identifier. *)
Definition sameForkBlocks (c newcfg : ChainConfig) : Prop :=
  HomesteadBlock c = HomesteadBlock newcfg
  /\ DAOForkBlock c = DAOForkBlock newcfg
  /\ EIP150Block c = EIP150Block newcfg
  /\ EIP155Block c = EIP155Block newcfg
  /\ EIP158Block c = EIP158Block newcfg
  /\ ByzantiumBlock c = ByzantiumBlock newcfg
  /\ ChainId c = ChainId newcfg.

(** Two configurations that agree on everything [checkCompatible]
    reads. *)
Definition sameSchedule (c newcfg : ChainConfig) : Prop :=
  sameForkBlocks c newcfg /\ DAOForkSupport c = DAOForkSupport newcfg.

(** What [CheckCompatible] is to return from [height]: nothing when no
    boundary conflicts there, else an error of a conflicting boundary
    whose rewind height is the least of all conflicting boundaries. *)
Definition lowestConflict (c newcfg : ChainConfig) (height : Z)
  (result : option ConfigCompatError) : Prop :=
  match result with
  | None =>
      forall b, In b (boundaries c newcfg) -> conflict b height = false
  | Some e =>
      (exists b, In b (boundaries c newcfg) /\ conflict b height = true
                 /\ raisedBy e b)
      /\ (forall b, In b (boundaries c newcfg) ->
                    conflict b height = true -> RewindTo e <= rewindOf b)
  end.

(** *** Disagreement between two configurations, stated on the fields

    The lower of two blocks, where nil is no block at all. *)
Definition lowerBlock (s n : option Z) : option Z :=
  match s, n with
  | None, None => None
  | Some x, None => Some x
  | None, Some y => Some y
  | Some x, Some y => Some (Z.min x y)
  end.

(** [disagreeAt c newcfg g]: the two configurations disagree on one of
    the six fork boundaries (its blocks differ, or for the DAO fork the
    support flags differ, or for EIP158 the chain identifiers differ),
    and [g] is the lower of the two blocks of that boundary. *)
Definition disagreeAt (c newcfg : ChainConfig) (g : Z) : Prop :=
  (HomesteadBlock c <> HomesteadBlock newcfg
   /\ lowerBlock (HomesteadBlock c) (HomesteadBlock newcfg) = Some g)
  \/ ((DAOForkBlock c <> DAOForkBlock newcfg
       \/ DAOForkSupport c <> DAOForkSupport newcfg)
      /\ lowerBlock (DAOForkBlock c) (DAOForkBlock newcfg) = Some g)
  \/ (EIP150Block c <> EIP150Block newcfg
      /\ lowerBlock (EIP150Block c) (EIP150Block newcfg) = Some g)
  \/ (EIP155Block c <> EIP155Block newcfg
      /\ lowerBlock (EIP155Block c) (EIP155Block newcfg) = Some g)
  \/ ((EIP158Block c <> EIP158Block newcfg
       \/ ChainId c <> ChainId newcfg)
      /\ lowerBlock (EIP158Block c) (EIP158Block newcfg) = Some g)
  \/ (ByzantiumBlock c <> ByzantiumBlock newcfg
      /\ lowerBlock (ByzantiumBlock c) (ByzantiumBlock newcfg) = Some g).

(** What [CheckCompatible] is to return from [height], on the fields:
    nothing when every disagreement lies above [height]; else an error
    that rewinds to below the lowest disagreement at or below [height]
    (to 0 if that block is not positive). *)
Definition rewindsBelowLowest (c newcfg : ChainConfig) (height : Z)
  (result : option ConfigCompatError) : Prop :=
  match result with
  | None => forall g, disagreeAt c newcfg g -> height < g
  | Some e =>
      exists g, disagreeAt c newcfg g /\ g <= height
                /\ RewindTo e = Z.max 0 (g - 1)
                /\ (forall g', disagreeAt c newcfg g' -> g' <= height ->
                               RewindTo e <= Z.max 0 (g' - 1))
  end.

(** *** Concrete configurations *)

(** A fork scheduled at 100 in the stored configuration and at 200 in
    the new one. *)
Definition storedAt100 : ChainConfig :=
  set_HomesteadBlock (Some 100) emptyConfig.

Definition newAt200 : ChainConfig :=
  set_HomesteadBlock (Some 200) emptyConfig.

(** A fork that only the new configuration schedules. *)
Definition newAt100 : ChainConfig :=
  set_HomesteadBlock (Some 100) emptyConfig.

(** A fork active from genesis that the new configuration moves. *)
Definition storedAt0 : ChainConfig :=
  set_HomesteadBlock (Some 0) emptyConfig.

Definition newAt5 : ChainConfig :=
  set_HomesteadBlock (Some 5) emptyConfig.

(** Frontier from genesis, SaoHao never scheduled. *)
Definition frontierOnly : ChainConfig :=
  set_FrontierBlock (Some 0) emptyConfig.

(** The DAO fork from genesis, supported or opposed, with Homestead at
    genesis or moved to 5. *)
Definition daoSupported : ChainConfig :=
  set_DAOForkSupport true
    (set_DAOForkBlock (Some 0) (set_HomesteadBlock (Some 0) emptyConfig)).

Definition daoOpposed : ChainConfig :=
  set_DAOForkSupport false
    (set_DAOForkBlock (Some 0) (set_HomesteadBlock (Some 0) emptyConfig)).

Definition daoOpposedHomestead5 : ChainConfig :=
  set_DAOForkSupport false
    (set_DAOForkBlock (Some 0) (set_HomesteadBlock (Some 5) emptyConfig)).

(** The DAO fork at 50, supported or opposed. *)
Definition dao50Supported : ChainConfig :=
  set_DAOForkSupport true (set_DAOForkBlock (Some 50) emptyConfig).

Definition dao50Opposed : ChainConfig :=
  set_DAOForkSupport false (set_DAOForkBlock (Some 50) emptyConfig).

(** All six boundaries in conflict, each lower than the one before. *)
Definition staircaseStored : ChainConfig :=
  {| ChainId := Some 1; HomesteadBlock := Some 60; FrontierBlock := None;
     HorizonBlock := None; HopeBlock := None; SettlementBlock := None;
     ByzantiumBlock := Some 10; DunedinBlock := None; BerlinBlock := None;
     PekingBlock := None; RennisanceBlock := None; EdinburghBlock := None;
     KitchenerBlock := None; WaterlooBlock := None; KyotoBlock := None;
     InstanbulBlock := None; NovaBlock := None; SolBlock := None;
     ChenXingBlock := None; TaihakuseiBlock := None; SaoHaoBlock := None;
     JupiterBlock := None; PlutoBlock := None; MilkyWayBlock := None;
     AndromedaBlock := None; BodesBlock := None; HoagsBlock := None;
     MayallsBlock := None; ThalesBlock := None; PythagorasBlock := None;
     ParmenidesBlock := None; ZenoBlock := None; SocratesBlock := None;
     PlatoBlock := None; CiceroBlock := None; AquinasBlock := None;
     DescartesBlock := None; HobbesBlock := None; SpinozaBlock := None;
     LockeBlock := None; NewtonBlock := None; LeibnizBlock := None;
     VoltaireBlock := None; HumeBlock := None; RousseauBlock := None;
     SmithBlock := None; KantBlock := None; ButerinBlock := None;
     DAOForkBlock := Some 50; DAOForkSupport := false;
     EIP150Block := Some 40; EIP150Hash := 0; EIP155Block := Some 30;
     EIP158Block := Some 20; Ethash := None; Clique := None |}.

Definition staircaseNew : ChainConfig :=
  {| ChainId := Some 1; HomesteadBlock := Some 61; FrontierBlock := None;
     HorizonBlock := None; HopeBlock := None; SettlementBlock := None;
     ByzantiumBlock := Some 11; DunedinBlock := None; BerlinBlock := None;
     PekingBlock := None; RennisanceBlock := None; EdinburghBlock := None;
     KitchenerBlock := None; WaterlooBlock := None; KyotoBlock := None;
     InstanbulBlock := None; NovaBlock := None; SolBlock := None;
     ChenXingBlock := None; TaihakuseiBlock := None; SaoHaoBlock := None;
     JupiterBlock := None; PlutoBlock := None; MilkyWayBlock := None;
     AndromedaBlock := None; BodesBlock := None; HoagsBlock := None;
     MayallsBlock := None; ThalesBlock := None; PythagorasBlock := None;
     ParmenidesBlock := None; ZenoBlock := None; SocratesBlock := None;
     PlatoBlock := None; CiceroBlock := None; AquinasBlock := None;
     DescartesBlock := None; HobbesBlock := None; SpinozaBlock := None;
     LockeBlock := None; NewtonBlock := None; LeibnizBlock := None;
     VoltaireBlock := None; HumeBlock := None; RousseauBlock := None;
     SmithBlock := None; KantBlock := None; ButerinBlock := None;
     DAOForkBlock := Some 51; DAOForkSupport := false;
     EIP150Block := Some 41; EIP150Hash := 0; EIP155Block := Some 31;
     EIP158Block := Some 21; Ethash := None; Clique := None |}.

End Params.

Module Rue.

Import Params.

(** *** Collaborators of [CreateConsensusEngine] *)

(** Modelled from the spec: the mode flags of package [ruehash], which is
    not under src/: fake, test, shared and normal; [ModeOther] stands for
    any flag value that is none of these. *)
Inductive Mode : Type :=
  | ModeNormal | ModeShared | ModeTest | ModeFake | ModeOther (flag : Z).

Definition Mode_eqb (x y : Mode) : bool :=
  match x, y with
  | ModeNormal, ModeNormal => true
  | ModeShared, ModeShared => true
  | ModeTest, ModeTest => true
  | ModeFake, ModeFake => true
  | ModeOther a, ModeOther b => a =? b
  | _, _ => false
  end.

(** [ruehash.Config], the fields [CreateConsensusEngine] reads. *)
Record RuehashConfig : Type := mkRuehashConfig {
  CacheDir : string;
  CachesInMem : Z;
  CachesOnDisk : Z;
  DatasetDir : string;
  DatasetsInMem : Z;
  DatasetsOnDisk : Z;
  PowMode : Mode
}.

(** [node.ServiceContext], of which only [ResolvePath] is used. *)
Record ServiceContext : Type := mkServiceContext {
  ResolvePath : string -> string
}.

Section Engines.

(** [ruedb.Database] is an interface of a package outside src/. *)
Variable Database : Type.

(** Modelled from the spec: the engines of packages [clique] and
    [ruehash], which are not under src/, each as the constructor call
    that makes it: [clique.New], [ruehash.NewFaker], [ruehash.NewTester],
    [ruehash.NewShared], and [ruehash.New] with the thread count that
    [SetThreads] leaves. *)
Inductive Engine : Type :=
  | clique_New (config : CliqueConfig) (db : Database)
  | ruehash_NewFaker
  | ruehash_NewTester
  | ruehash_NewShared
  | ruehash_New (config : RuehashConfig) (threads : Z).

Definition SetThreads (threads : Z) (e : Engine) : Engine :=
  match e with
  | ruehash_New config _ => ruehash_New config threads
  | other => other
  end.

Definition isProofOfAuthority (e : Engine) : bool :=
  match e with
  | clique_New _ _ => true
  | _ => false
  end.

(** [CreateConsensusEngine] creates the required type of consensus engine
    instance for a Rue service.  The result comes with the warnings it
    logs. *)
Definition CreateConsensusEngine (ctx : ServiceContext)
  (config : RuehashConfig) (chainConfig : ChainConfig) (db : Database)
  : Engine * list string :=
  match Clique chainConfig with
  | Some cliqueConfig => (clique_New cliqueConfig db, [])
  | None =>
      if Mode_eqb (PowMode config) ModeFake then
        (ruehash_NewFaker, ["Ruehash used in fake mode"%string])
      else if Mode_eqb (PowMode config) ModeTest then
        (ruehash_NewTester, ["Ruehash used in test mode"%string])
      else if Mode_eqb (PowMode config) ModeShared then
        (ruehash_NewShared, ["Ruehash used in shared mode"%string])
      else
        let engine :=
          ruehash_New
            (mkRuehashConfig (ResolvePath ctx (CacheDir config))
               (CachesInMem config) (CachesOnDisk config)
               (DatasetDir config) (DatasetsInMem config)
               (DatasetsOnDisk config) ModeNormal)
            0 in
        (SetThreads (-1) engine, [])
  end.

End Engines.

Arguments clique_New {Database} config db.
Arguments ruehash_NewFaker {Database}.
Arguments ruehash_NewTester {Database}.
Arguments ruehash_NewShared {Database}.
Arguments ruehash_New {Database} config threads.
Arguments SetThreads {Database} threads e.
Arguments isProofOfAuthority {Database} e.
Arguments CreateConsensusEngine {Database} ctx config chainConfig db.

(** *** The default beneficiary *)

(** [common.Address]: 20 bytes, read as a number; the zero value is 0. *)
Definition common_Address : Type := Z.

Definition zeroAddress : common_Address := 0.

(** [accounts.Account] *)
Record Account : Type := mkAccount {
  Address : common_Address;
  URL : string
}.

(** [accounts.Wallet], of which only [Accounts()] is used. *)
Record Wallet : Type := mkWallet {
  Accounts : list Account
}.

(** [accounts.Manager], of which only [Wallets()] is used. *)
Record Manager : Type := mkManager {
  Wallets : list Wallet
}.

(** Calls that [Ruebase] makes to its collaborators. *)
Inductive Event : Type :=
  | CallWallets
  | CallAccounts
  | LogInfo (msg : string) (address : common_Address).

(** The fields of [Rue] that [Ruebase] reads and writes, with the calls
    made to collaborators so far, oldest first. *)
Record RueState : Type := mkRueState {
  ruebase : common_Address;
  accountManager : Manager;
  events : list Event
}.

Definition errRuebaseMissing : string :=
  "ruebase must be explicitly specified".

(** [Ruebase] returns [(eb, err)] and the state it leaves. *)
Definition Ruebase (s : RueState)
  : (common_Address * option string) * RueState :=
  let ruebase0 := ruebase s in
  if negb (ruebase0 =? zeroAddress) then ((ruebase0, None), s)
  else
    let wallets := Wallets (accountManager s) in
    let s1 := mkRueState (ruebase s) (accountManager s)
                (events s ++ [CallWallets]) in
    match wallets with
    | wallet0 :: _ =>
        let accounts := Accounts wallet0 in
        let s2 := mkRueState (ruebase s1) (accountManager s1)
                    (events s1 ++ [CallAccounts]) in
        match accounts with
        | account0 :: _ =>
            let ruebase1 := Address account0 in
            let s3 := mkRueState ruebase1 (accountManager s2)
                        (events s2
                         ++ [LogInfo "Ruebase automatically configured"
                               ruebase1]) in
            ((ruebase1, None), s3)
        | [] => ((zeroAddress, Some errRuebaseMissing), s2)
        end
    | [] => ((zeroAddress, Some errRuebaseMissing), s1)
    end.

(** All the accounts the account manager holds, wallet by wallet. *)
Definition managedAccounts (s : RueState) : list Account :=
  flat_map Accounts (Wallets (accountManager s)).

(** The number of times the account manager has been asked. *)
Definition accountQueries (s : RueState) : nat :=
  List.length (filter (fun e => match e with
                           | CallWallets | CallAccounts => true
                           | LogInfo _ _ => false
                           end) (events s)).

(** *** Concrete inputs *)

Definition plainContext : ServiceContext :=
  mkServiceContext (fun path => path).

Definition fakeModeConfig : RuehashConfig :=
  mkRuehashConfig "cache" 2 3 "dataset" 1 2 ModeFake.

(** A chain configured for proof-of-authority, period 0 and epoch
    30000 as in [AllCliqueProtocolChanges]. *)
Definition cliqueChain : ChainConfig :=
  set_Clique (Some (mkCliqueConfig 0 30000)) emptyConfig.

Definition account7 : Account := mkAccount 7 "keystore://seven".

Definition accountZero : Account := mkAccount 0 "keystore://zero".

(** No explicit beneficiary, and: no wallet; one wallet with one
    account; an empty wallet before the one with the account; one
    wallet whose account has the zero address. *)
Definition noWallets : RueState :=
  mkRueState zeroAddress (mkManager []) [].

Definition oneAccount : RueState :=
  mkRueState zeroAddress (mkManager [mkWallet [account7]]) [].

Definition emptyFirstWallet : RueState :=
  mkRueState zeroAddress (mkManager [mkWallet []; mkWallet [account7]]) [].

Definition zeroAddressAccount : RueState :=
  mkRueState zeroAddress (mkManager [mkWallet [accountZero]]) [].

(** An explicit beneficiary. *)
Definition explicitBeneficiary : RueState :=
  mkRueState 9 (mkManager [mkWallet [account7]]) [].

End Rue.

(** * More of the chain configuration *)

Module ParamsMore.

Import Params.

Section GasTables.

(** The gas tables are declared in another file of package [params],
    which is not under src/; [GasTable] returns one of three of them. *)
Variable GasTableT : Type.
Variables GasTableHomestead GasTableEIP150 GasTableEIP158 : GasTableT.

(** [GasTable] returns the gas table corresponding to the current phase
    (homestead or homestead reprice). *)
Definition GasTable (c : ChainConfig) (num : option Z) : GasTableT :=
  match num with
  | None => GasTableHomestead
  | Some _ =>
      if IsEIP158 c num then GasTableEIP158
      else if IsEIP150 c num then GasTableEIP150
      else GasTableHomestead
  end.

End GasTables.

Arguments GasTable {GasTableT} GasTableHomestead GasTableEIP150
  GasTableEIP158 c num.

(** An error read from the other side: the stored and the new block
    change places. *)
Definition swapError (e : ConfigCompatError) : ConfigCompatError :=
  mkConfigCompatError (What e) (NewConfig e) (StoredConfig e) (RewindTo e).

(** A block that is nil or lies above the head. *)
Definition notYet (s : option Z) (h : Z) : Prop :=
  match s with
  | None => True
  | Some v => h < v
  end.

End ParamsMore.

(** * More of the node service *)

Module RueMore.

Import Params Rue.

(** ** Machine integers

    A Go [int] is taken as 64 bits wide, two's complement. *)
Definition int_min : Z := - 2 ^ 63.

Definition int_max : Z := 2 ^ 63 - 1.

Definition is_int (x : Z) : Prop := int_min <= x <= int_max.

(** The value an [int] operation leaves, wrapping around. *)
Definition int_wrap (x : Z) : Z := (x + 2 ^ 63) mod 2 ^ 64 - 2 ^ 63.

(** ** Extra data *)

Section ExtraData.

(** The default extra data is the RLP encoding of the version, the
    client name, the Go version and the operating system, made by
    package [rlp], which is not under src/; the limit is a constant of a
    file of package [params] that is not under src/ either. *)
Variable defaultExtraData : list Byte.byte.
Variable MaximumExtraDataSize : Z.

(** [makeExtraData], with the warnings it logs. *)
Definition makeExtraData (extra : list Byte.byte)
  : list Byte.byte * list string :=
  let extra1 :=
    if Z.of_nat (List.length extra) =? 0 then defaultExtraData else extra in
  if Z.of_nat (List.length extra1) >? MaximumExtraDataSize
  then ([], ["Miner extra data exceed limit"%string])
  else (extra1, []).

End ExtraData.

(** ** Peers *)

(** The number of peers [Start] gives the protocol manager: the server's
    limit, less the light peers when light serving is on, but not below
    half the limit. *)
Definition startMaxPeers (MaxPeers LightServ LightPeers : Z) : Z :=
  let maxPeers := MaxPeers in
  if LightServ >? 0 then
    let maxPeers1 := int_wrap (maxPeers - LightPeers) in
    if maxPeers1 <? Z.quot MaxPeers 2 then Z.quot MaxPeers 2 else maxPeers1
  else maxPeers.

(** ** Start and stop *)

(** Calls that [Start] and [Stop] make to collaborators, and the closing
    of the shutdown channel. *)
Inductive ServiceCall : Type :=
  | StartBloomHandlers
  | NewPublicNetAPI (networkId : Z)
  | ProtocolManagerStart (maxPeers : Z)
  | LesServerStart
  | StopDbUpgrade
  | BloomIndexerClose
  | BlockchainStop
  | ProtocolManagerStop
  | LesServerStop
  | TxPoolStop
  | MinerStop
  | EventMuxStop
  | ChainDbClose
  | CloseShutdownChan.

(** How a call ends: it returns, with an error or nil, or it panics. *)
Inductive Outcome : Type :=
  | Returned (err : option string)
  | Panicked (msg : string).

(** The fields of [Rue] that [Start] and [Stop] read and write:
    [config.LightServ], [config.LightPeers], [networkId], whether
    [lesServer] and [stopDbUpgrade] are non-nil, whether [shutdownChan]
    has been closed, and the calls made so far, oldest first. *)
Record Lifecycle : Type := mkLifecycle {
  LightServ : Z;
  LightPeers : Z;
  networkId : Z;
  lesServer : bool;
  stopDbUpgrade : bool;
  shutdownClosed : bool;
  calls : list ServiceCall
}.

Definition withCalls (s : Lifecycle) (more : list ServiceCall)
  : Lifecycle :=
  mkLifecycle (LightServ s) (LightPeers s) (networkId s) (lesServer s)
    (stopDbUpgrade s) (shutdownClosed s) (calls s ++ more).

(** [Start], given [srvr.MaxPeers]. *)
Definition Start (MaxPeers : Z) (s : Lifecycle) : Outcome * Lifecycle :=
  let maxPeers := startMaxPeers MaxPeers (LightServ s) (LightPeers s) in
  (Returned None,
   withCalls s
     ([StartBloomHandlers; NewPublicNetAPI (networkId s);
       ProtocolManagerStart maxPeers]
      ++ (if lesServer s then [LesServerStart] else []))).

(** [Stop].  Closing a channel that is closed already panics. *)
Definition Stop (s : Lifecycle) : Outcome * Lifecycle :=
  let s1 :=
    withCalls s
      ((if stopDbUpgrade s then [StopDbUpgrade] else [])
       ++ [BloomIndexerClose; BlockchainStop; ProtocolManagerStop]
       ++ (if lesServer s then [LesServerStop] else [])
       ++ [TxPoolStop; MinerStop; EventMuxStop; ChainDbClose]) in
  if shutdownClosed s1 then (Panicked "close of closed channel", s1)
  else
    (Returned None,
     mkLifecycle (LightServ s1) (LightPeers s1) (networkId s1)
       (lesServer s1) (stopDbUpgrade s1) true
       (calls s1 ++ [CloseShutdownChan])).

(** The stop calls a service makes to its collaborators, first to
    last, for a service with or without a database upgrade to halt and
    with or without a light server. *)
Definition stopsInOrder (dbUpgrade les : bool) : list ServiceCall :=
  match dbUpgrade, les with
  | true, true =>
      [StopDbUpgrade; BloomIndexerClose; BlockchainStop;
       ProtocolManagerStop; LesServerStop; TxPoolStop; MinerStop;
       EventMuxStop; ChainDbClose]
  | true, false =>
      [StopDbUpgrade; BloomIndexerClose; BlockchainStop;
       ProtocolManagerStop; TxPoolStop; MinerStop; EventMuxStop;
       ChainDbClose]
  | false, true =>
      [BloomIndexerClose; BlockchainStop; ProtocolManagerStop;
       LesServerStop; TxPoolStop; MinerStop; EventMuxStop; ChainDbClose]
  | false, false =>
      [BloomIndexerClose; BlockchainStop; ProtocolManagerStop;
       TxPoolStop; MinerStop; EventMuxStop; ChainDbClose]
  end.

(** A sequence of [Start] and [Stop] calls on one service. *)
Inductive LifecycleOp : Type :=
  | DoStart (MaxPeers : Z)
  | DoStop.

Fixpoint runOps (ops : list LifecycleOp) (s : Lifecycle) : Lifecycle :=
  match ops with
  | [] => s
  | DoStart MaxPeers :: rest => runOps rest (snd (Start MaxPeers s))
  | DoStop :: rest => runOps rest (snd (Stop s))
  end.

(** ** Mining *)

(** Calls to the miner. *)
Inductive MinerCall : Type :=
  | MinerSetRuebase (ruebase : common_Address)
  | MinerStart (ruebase : common_Address).

Section Mining.

Variable Database : Type.

(** [accounts.Manager.Find] is of a package that is not under src/: it
    returns a wallet, or nil, and an error, or nil. *)
Variable Find : Manager -> Account -> option Wallet * option string.

(** The fields of [Rue] that [SetRuebase] and [StartMining] read and
    write: those of [Ruebase]; the engine; [protocolManager.acceptTxs];
    and the calls made to [clique.Authorize] (with the address and the
    wallet whose [SignHash] is handed over), to the miner, and to
    [log.Error]. *)
Record Node : Type := mkNode {
  service : RueState;
  engine : Engine Database;
  acceptTxs : Z;
  authorizeCalls : list (common_Address * Wallet);
  minerCalls : list MinerCall;
  errorLog : list string
}.

(** [SetRuebase]: set in js console via admin interface or wrapper from
    cli flags. *)
Definition SetRuebase (addr : common_Address) (n : Node) : Node :=
  mkNode
    (mkRueState addr (accountManager (service n)) (events (service n)))
    (engine n) (acceptTxs n) (authorizeCalls n)
    (minerCalls n ++ [MinerSetRuebase addr]) (errorLog n).

(** [%v] of an error that may be nil. *)
Definition showError (err : option string) : string :=
  match err with
  | Some msg => msg
  | None => "<nil>"
  end.

(** [StartMining] returns the error, or nil, and the node it leaves.
    The miner is started in a goroutine of its own: the call is
    recorded when it is launched. *)
Definition StartMining (local : bool) (n : Node) : option string * Node :=
  let '((eb, err), service1) := Ruebase (service n) in
  let n1 := mkNode service1 (engine n) (acceptTxs n) (authorizeCalls n)
              (minerCalls n) (errorLog n) in
  match err with
  | Some msg =>
      (Some ("ruebase missing: " ++ msg)%string,
       mkNode (service n1) (engine n1) (acceptTxs n1) (authorizeCalls n1)
         (minerCalls n1)
         (errorLog n1 ++ ["Cannot start mining without ruebase"%string]))
  | None =>
      let authorized :=
        match engine n1 with
        | clique_New _ _ =>
            match Find (accountManager (service n1)) (mkAccount eb EmptyString)
            with
            | (Some wallet, None) =>
                inr (mkNode (service n1) (engine n1) (acceptTxs n1)
                       (authorizeCalls n1 ++ [(eb, wallet)])
                       (minerCalls n1) (errorLog n1))
            | (_, err1) =>
                inl (Some ("signer missing: " ++ showError err1)%string,
                     mkNode (service n1) (engine n1) (acceptTxs n1)
                       (authorizeCalls n1) (minerCalls n1)
                       (errorLog n1
                        ++ ["Ruebase account unavailable locally"%string]))
            end
        | _ => inr n1
        end in
      match authorized with
      | inl failed => failed
      | inr n2 =>
          let n3 :=
            if local
            then mkNode (service n2) (engine n2) 1 (authorizeCalls n2)
                   (minerCalls n2) (errorLog n2)
            else n2 in
          (None,
           mkNode (service n3) (engine n3) (acceptTxs n3)
             (authorizeCalls n3) (minerCalls n3 ++ [MinerStart eb])
             (errorLog n3))
      end
  end.

End Mining.

Arguments mkNode {Database} service engine acceptTxs authorizeCalls
  minerCalls errorLog.
Arguments service {Database} n.
Arguments engine {Database} n.
Arguments acceptTxs {Database} n.
Arguments authorizeCalls {Database} n.
Arguments minerCalls {Database} n.
Arguments errorLog {Database} n.
Arguments SetRuebase {Database} addr n.
Arguments StartMining {Database} Find local n.

(** *** Concrete inputs *)

(** A finder that knows the wallet of [account7] only. *)
Definition findSeven (m : Manager) (a : Account)
  : option Wallet * option string :=
  if Address a =? 7 then (Some (mkWallet [account7]), None)
  else (None, Some "unknown account"%string).

Definition powNode (s : RueState) : Node unit :=
  mkNode s (ruehash_NewFaker (Database := unit)) 0 [] [] [].

Definition cliqueNode (s : RueState) : Node unit :=
  mkNode s (clique_New (mkCliqueConfig 0 30000) tt) 0 [] [] [].

Definition lightServing : Lifecycle :=
  mkLifecycle 50 100 1 true false false [].

End RueMore.

(** * Properties of the chain configuration *)

Module ParamsTheory.

Import Params.

(** ** Comparisons *)

Lemma Cmp_le0 (x y : Z) : (Cmp x y <=? 0) = (x <=? y).
Proof.
  unfold Cmp, Z.leb. destruct (x ?= y); reflexivity.
Qed.

Lemma Cmp_lt0 (x y : Z) : (Cmp x y <? 0) = (x <? y).
Proof.
  unfold Cmp, Z.ltb. destruct (x ?= y); reflexivity.
Qed.

Lemma Cmp_eq0 (x y : Z) : (Cmp x y =? 0) = (x =? y).
Proof.
  unfold Cmp. destruct (Z.compare_spec x y) as [H|H|H]; simpl; symmetry.
  - apply Z.eqb_eq. exact H.
  - apply Z.eqb_neq. lia.
  - apply Z.eqb_neq. lia.
Qed.

Lemma Sign_pos (x : Z) : (Sign x >? 0) = (0 <? x).
Proof.
  unfold Sign. destruct x; reflexivity.
Qed.

Lemma isForked_Some (s h : Z) : isForked (Some s) (Some h) = (s <=? h).
Proof. apply Cmp_le0. Qed.

(** The boundary is inclusive: active at the scheduled block, not at the
    block before. *)
Lemma isForked_boundary (s : Z) :
  isForked (Some s) (Some s) = true
  /\ isForked (Some s) (Some (s - 1)) = false.
Proof.
  rewrite !isForked_Some. split.
  - apply Z.leb_le. lia.
  - apply Z.leb_gt. lia.
Qed.

Lemma isForked_nil_head (s : option Z) : isForked s None = false.
Proof. destruct s; reflexivity. Qed.

Lemma isForked_true_iff (s : option Z) (h : Z) :
  isForked s (Some h) = true <-> exists v, s = Some v /\ v <= h.
Proof.
  destruct s as [v|]; simpl.
  - rewrite Cmp_le0, Z.leb_le. split.
    + intros Hv. exists v. split; [reflexivity | exact Hv].
    + intros [w [Hw Hle]]. injection Hw as ->. exact Hle.
  - split; [discriminate | intros [w [Hw _]]; discriminate].
Qed.

Lemma isForked_mono (s : option Z) (h1 h2 : Z) :
  h1 <= h2 -> isForked s (Some h1) = true -> isForked s (Some h2) = true.
Proof.
  intros Hle. rewrite !isForked_true_iff.
  intros [v [Hs Hv]]. exists v. split; [exact Hs | lia].
Qed.

Lemma configNumEqual_true_iff (x y : option Z) :
  configNumEqual x y = true <-> x = y.
Proof.
  destruct x as [x|], y as [y|]; simpl;
    try rewrite Cmp_eq0, Z.eqb_eq;
    split; intros H; try discriminate; try reflexivity; congruence.
Qed.

Lemma configNumEqual_refl (x : option Z) : configNumEqual x x = true.
Proof. apply configNumEqual_true_iff. reflexivity. Qed.

Lemma isForkIncompatible_refl (s head : option Z) :
  isForkIncompatible s s head = false.
Proof.
  unfold isForkIncompatible. rewrite configNumEqual_refl.
  apply andb_false_r.
Qed.

(** ** The rewind height of an error *)

Lemma newCompatError_What what s n : What (newCompatError what s n) = what.
Proof.
  unfold newCompatError. destruct (rewindBlock s n) as [r|]; [|reflexivity].
  destruct (Sign r >? 0); reflexivity.
Qed.

Lemma newCompatError_StoredConfig what s n :
  StoredConfig (newCompatError what s n) = s.
Proof.
  unfold newCompatError. destruct (rewindBlock s n) as [r|]; [|reflexivity].
  destruct (Sign r >? 0); reflexivity.
Qed.

Lemma newCompatError_NewConfig what s n :
  NewConfig (newCompatError what s n) = n.
Proof.
  unfold newCompatError. destruct (rewindBlock s n) as [r|]; [|reflexivity].
  destruct (Sign r >? 0); reflexivity.
Qed.

Lemma newCompatError_RewindTo_what what what' s n :
  RewindTo (newCompatError what s n) = RewindTo (newCompatError what' s n).
Proof.
  unfold newCompatError. destruct (rewindBlock s n) as [r|]; [|reflexivity].
  destruct (Sign r >? 0); reflexivity.
Qed.

Lemma newCompatError_RewindTo_nil what s n :
  rewindBlock s n = None -> RewindTo (newCompatError what s n) = 0.
Proof.
  intros H. unfold newCompatError. rewrite H. reflexivity.
Qed.

Lemma newCompatError_RewindTo_nonpos what s n r :
  rewindBlock s n = Some r -> r <= 0 ->
  RewindTo (newCompatError what s n) = 0.
Proof.
  intros H Hr. unfold newCompatError. rewrite H, Sign_pos.
  destruct (0 <? r) eqn:E; [apply Z.ltb_lt in E; lia | reflexivity].
Qed.

Lemma Uint64_small (r : Z) : is_uint64 r -> Uint64 r = r.
Proof.
  unfold is_uint64, Uint64. intros H.
  rewrite Z.abs_eq by lia. apply Z.mod_small. exact H.
Qed.

Lemma newCompatError_RewindTo_pos what s n r :
  rewindBlock s n = Some r -> 0 < r < uint64_modulus ->
  RewindTo (newCompatError what s n) = r - 1.
Proof.
  intros H Hr. unfold newCompatError. rewrite H, Sign_pos.
  destruct (0 <? r) eqn:E; [| apply Z.ltb_ge in E; lia].
  simpl. rewrite Uint64_small by (unfold is_uint64; lia).
  unfold uint64_sub. apply Z.mod_small. lia.
Qed.

(** Whatever the blocks, the rewind height is a [uint64]. *)
Lemma newCompatError_RewindTo_range what s n :
  is_uint64 (RewindTo (newCompatError what s n)).
Proof.
  unfold newCompatError, is_uint64.
  destruct (rewindBlock s n) as [r|]; [| simpl; unfold uint64_modulus; lia].
  destruct (Sign r >? 0); simpl.
  - unfold uint64_sub. apply Z.mod_pos_bound. reflexivity.
  - unfold uint64_modulus. lia.
Qed.

(** With a governing block below [2^64], the rewind height is the block
    less one, and 0 for a block that is not positive. *)
Lemma newCompatError_RewindTo_max what s n r :
  rewindBlock s n = Some r -> r < uint64_modulus ->
  RewindTo (newCompatError what s n) = Z.max 0 (r - 1).
Proof.
  intros H Hr. destruct (Z_lt_le_dec 0 r) as [Hpos|Hnp].
  - rewrite (newCompatError_RewindTo_pos _ _ _ _ H) by lia. lia.
  - rewrite (newCompatError_RewindTo_nonpos _ _ _ _ H) by lia. lia.
Qed.

Lemma rewindBlock_both (s n : Z) :
  rewindBlock (Some s) (Some n) = Some (Z.min s n).
Proof.
  unfold rewindBlock. rewrite Cmp_lt0.
  destruct (s <? n) eqn:E; f_equal.
  - apply Z.ltb_lt in E. lia.
  - apply Z.ltb_ge in E. lia.
Qed.

(** ** Fork boundaries *)

Ltac cmp_cases :=
  rewrite ?Cmp_le0, ?Cmp_lt0, ?Cmp_eq0 in *;
  repeat match goal with
  | |- context [?x <=? ?y] => destruct (Z.leb_spec x y)
  | |- context [?x <? ?y] => destruct (Z.ltb_spec x y)
  | |- context [?x =? ?y] => destruct (Z.eqb_spec x y)
  end.

(** A boundary conflicts at [h] exactly when it disagrees and its
    governing block is at or below [h]. *)
Lemma conflict_iff (b : Boundary) (h : Z) :
  conflict b h = true <->
  mismatch b /\
  exists g, rewindBlock (storedBlock b) (newBlock b) = Some g /\ g <= h.
Proof.
  destruct b as [[s|] [n|] gated]; destruct gated;
    unfold conflict, mismatch, isForkIncompatible, isForked,
      configNumEqual, rewindBlock; simpl;
    cmp_cases; simpl; split;
    try discriminate; try reflexivity; try lia;
    try (intros _; split; [first [left; congruence | right; reflexivity]
                          | eexists; split; [reflexivity | lia]]);
    try (intros [[Hm|Hm] [g [Hg Hle]]];
         first [congruence | discriminate
               | injection Hg as <-; lia | idtac]).
Qed.

Lemma conflict_mono (b : Boundary) (h1 h2 : Z) :
  h1 <= h2 -> conflict b h1 = true -> conflict b h2 = true.
Proof.
  intros Hle. rewrite !conflict_iff.
  intros [Hm [g [Hg Hg1]]]. split; [exact Hm|].
  exists g. split; [exact Hg | lia].
Qed.

Lemma conflict_governing (b : Boundary) (h : Z) :
  conflict b h = true ->
  exists g, rewindBlock (storedBlock b) (newBlock b) = Some g /\ g <= h.
Proof.
  rewrite conflict_iff. intros [_ H]. exact H.
Qed.

Lemma conflict_persist (b : Boundary) (h r g : Z) :
  conflict b h = true ->
  rewindBlock (storedBlock b) (newBlock b) = Some g -> g <= r ->
  conflict b r = true.
Proof.
  rewrite !conflict_iff. intros [Hm _] Hg Hle.
  split; [exact Hm|]. exists g. split; [exact Hg | exact Hle].
Qed.

Lemma conflict_below (b : Boundary) (r g : Z) :
  rewindBlock (storedBlock b) (newBlock b) = Some g -> r < g ->
  conflict b r = false.
Proof.
  intros Hg Hlt. destruct (conflict b r) eqn:E; [|reflexivity].
  apply conflict_iff in E. destruct E as [_ [g' [Hg' Hle]]].
  rewrite Hg in Hg'. injection Hg' as <-. lia.
Qed.

(** The rewind height of a boundary that conflicts at a [uint64] head. *)
Lemma conflict_rewindOf (b : Boundary) (h : Z) :
  h < uint64_modulus -> conflict b h = true ->
  exists g, rewindBlock (storedBlock b) (newBlock b) = Some g /\ g <= h
            /\ rewindOf b = Z.max 0 (g - 1).
Proof.
  intros Hh Hc. destruct (conflict_governing _ _ Hc) as [g [Hg Hle]].
  exists g. split; [exact Hg|]. split; [exact Hle|].
  unfold rewindOf. apply newCompatError_RewindTo_max; [exact Hg | lia].
Qed.

Lemma rewindOf_nonneg (b : Boundary) : 0 <= rewindOf b.
Proof.
  unfold rewindOf.
  destruct (newCompatError_RewindTo_range EmptyString (storedBlock b)
              (newBlock b))
    as [H _].
  exact H.
Qed.

(** ** One pass of the check *)

Lemma raisedBy_RewindTo e b : raisedBy e b -> RewindTo e = rewindOf b.
Proof.
  intros [what ->]. unfold rewindOf. apply newCompatError_RewindTo_what.
Qed.

Ltac raise_at_boundary E :=
  intros He; injection He as <-;
  eexists; split;
  [ unfold boundaries; simpl;
    ((left; reflexivity)
     + (right; left; reflexivity)
     + (right; right; left; reflexivity)
     + (right; right; right; left; reflexivity)
     + (right; right; right; right; left; reflexivity)
     + (right; right; right; right; right; left; reflexivity))
  | split;
    [ unfold conflict; simpl; rewrite ?E; rewrite ?orb_true_r; reflexivity
    | eexists; reflexivity ] ].

Lemma checkCompatible_Some c newcfg h e :
  checkCompatible c newcfg (Some h) = Some e ->
  exists b, In b (boundaries c newcfg) /\ conflict b h = true
            /\ raisedBy e b.
Proof.
  unfold checkCompatible, IsDAOFork, IsEIP158.
  repeat match goal with
  | |- (if ?cond then _ else _) = Some _ -> _ =>
      let E := fresh "E" in
      destruct cond eqn:E; [ raise_at_boundary E | ]
  end.
  discriminate.
Qed.
Lemma checkCompatible_None_iff c newcfg h :
  checkCompatible c newcfg (Some h) = None <->
  forall b, In b (boundaries c newcfg) -> conflict b h = false.
Proof.
  split.
  - unfold checkCompatible, IsDAOFork, IsEIP158.
    repeat match goal with
    | |- (if ?cond then _ else _) = None -> _ =>
        let E := fresh "E" in
        destruct cond eqn:E; [discriminate|]
    end.
    intros _ b Hb. unfold boundaries in Hb. simpl in Hb.
    unfold conflict.
    repeat (destruct Hb as [<-|Hb]; [simpl; rewrite ?E, ?E0, ?E1, ?E2,
      ?E3, ?E4, ?E5, ?E6; rewrite ?andb_false_r; reflexivity|]).
    contradiction.
  - intros Hall.
    destruct (checkCompatible c newcfg (Some h)) as [e|] eqn:E;
      [|reflexivity].
    destruct (checkCompatible_Some _ _ _ _ E) as [b [Hb [Hc _]]].
    rewrite (Hall b Hb) in Hc. discriminate.
Qed.

(** An error found at a [uint64] head rewinds to below the head, or to
    0 when the head is 0. *)
Lemma checkCompatible_RewindTo_head c newcfg h e :
  is_uint64 h -> checkCompatible c newcfg (Some h) = Some e ->
  0 <= RewindTo e <= h /\ (RewindTo e = h -> h = 0).
Proof.
  intros [Hh0 Hh] He.
  destruct (checkCompatible_Some _ _ _ _ He) as [b [_ [Hc Hr]]].
  rewrite (raisedBy_RewindTo _ _ Hr).
  destruct (conflict_rewindOf b h Hh Hc) as [g [_ [Hle ->]]]. lia.
Qed.

(** ** Counting conflicts *)

Section FilterLength.

Variable A : Type.
Variables p q : A -> bool.

Lemma filter_count_le (l : list A) :
  (forall x, In x l -> p x = true -> q x = true) ->
  (List.length (filter p l) <= List.length (filter q l))%nat.
Proof.
  induction l as [|a l IH]; intros Himp; simpl; [lia|].
  assert (Hl : forall x, In x l -> p x = true -> q x = true)
    by (intros x Hx; apply Himp; right; exact Hx).
  specialize (IH Hl).
  destruct (p a) eqn:Ep.
  - rewrite (Himp a (or_introl eq_refl) Ep). simpl. lia.
  - destruct (q a); simpl; lia.
Qed.

Lemma filter_count_lt (l : list A) (b : A) :
  (forall x, In x l -> p x = true -> q x = true) ->
  In b l -> q b = true -> p b = false ->
  (List.length (filter p l) < List.length (filter q l))%nat.
Proof.
  induction l as [|a l IH]; intros Himp Hin Hq Hp; simpl; [contradiction|].
  assert (Hl : forall x, In x l -> p x = true -> q x = true)
    by (intros x Hx; apply Himp; right; exact Hx).
  destruct Hin as [->|Hin].
  - rewrite Hp, Hq. simpl.
    pose proof (filter_count_le l Hl). lia.
  - specialize (IH Hl Hin Hq Hp).
    destruct (p a) eqn:Ep.
    + rewrite (Himp a (or_introl eq_refl) Ep). simpl. lia.
    + destruct (q a); simpl; lia.
Qed.

End FilterLength.

Lemma conflictCount_bound c newcfg h :
  (conflictCount c newcfg h <= fork_boundary_count)%nat.
Proof.
  unfold conflictCount.
  change fork_boundary_count with (List.length (boundaries c newcfg)).
  apply List.filter_length_le.
Qed.

Lemma conflictCount_lt c newcfg b r h :
  r <= h -> In b (boundaries c newcfg) ->
  conflict b h = true -> conflict b r = false ->
  (conflictCount c newcfg r < conflictCount c newcfg h)%nat.
Proof.
  intros Hle Hin Hh Hr. unfold conflictCount.
  apply (filter_count_lt _ _ _ _ b); try assumption.
  intros x _. apply conflict_mono. exact Hle.
Qed.

Lemma conflictCount_pos c newcfg b h :
  In b (boundaries c newcfg) -> conflict b h = true ->
  (0 < conflictCount c newcfg h)%nat.
Proof.
  intros Hin Hc. unfold conflictCount.
  assert (Hf : In b (filter (fun b => conflict b h) (boundaries c newcfg)))
    by (apply filter_In; split; assumption).
  destruct (filter (fun b => conflict b h) (boundaries c newcfg));
    [contradiction | simpl; lia].
Qed.

(** Rewinding to the height of an error leaves fewer conflicts, unless
    it rewinds to 0. *)
Lemma rewind_lowers_count c newcfg h err :
  is_uint64 h -> checkCompatible c newcfg (Some h) = Some err ->
  RewindTo err = 0
  \/ (conflictCount c newcfg (RewindTo err) < conflictCount c newcfg h)%nat.
Proof.
  intros [Hh0 Hhlt] Echk.
  destruct (checkCompatible_Some _ _ _ _ Echk) as [b0 [Hin0 [Hc0 Hby0]]].
  destruct (conflict_rewindOf b0 h Hhlt Hc0) as [g [Hg [Hgh Hrew]]].
  rewrite (raisedBy_RewindTo _ _ Hby0), Hrew.
  destruct (Z_lt_le_dec 0 g) as [Hgpos|Hgnp]; [right | left; lia].
  replace (Z.max 0 (g - 1)) with (g - 1) by lia.
  apply (conflictCount_lt _ _ b0); try assumption; [lia|].
  apply (conflict_below b0 (g - 1) g Hg). lia.
Qed.

(** ** The loop *)

Lemma CheckCompatible_loop_unfold fuel c newcfg st :
  CheckCompatible_loop fuel c newcfg st =
  match loopBody c newcfg st with
  | inr result => Some result
  | inl st' =>
      match fuel with
      | O => None
      | S fuel' => CheckCompatible_loop fuel' c newcfg st'
      end
  end.
Proof. destruct fuel; reflexivity. Qed.

(** More fuel does not change a result. *)
Lemma CheckCompatible_loop_more fuel : forall fuel' c newcfg st result,
  (fuel <= fuel')%nat ->
  CheckCompatible_loop fuel c newcfg st = Some result ->
  CheckCompatible_loop fuel' c newcfg st = Some result.
Proof.
  induction fuel as [|fuel IH]; intros fuel' c newcfg st result Hle;
    rewrite (CheckCompatible_loop_unfold _ c newcfg st);
    rewrite (CheckCompatible_loop_unfold fuel' c newcfg st);
    destruct (loopBody c newcfg st) as [st'|r]; try (intros H; exact H).
  - discriminate.
  - destruct fuel' as [|fuel']; [lia|].
    apply IH. lia.
Qed.

Lemma CheckCompatible_loop_from_last fuel : forall c newcfg h le,
  is_uint64 h -> RewindTo le = h ->
  h = 0 \/ (conflictCount c newcfg h <= fuel)%nat ->
  exists e,
    CheckCompatible_loop fuel c newcfg (mkLoopState h (Some le))
    = Some (Some e)
    /\ loopResult c newcfg h le e.
Proof.
  induction fuel as [|fuel IH]; intros c newcfg h le Hh Hle Hfuel;
    rewrite CheckCompatible_loop_unfold; unfold loopBody; simpl;
    destruct (checkCompatible c newcfg (Some h)) as [err|] eqn:Echk.
  all: try (exists le; split; [reflexivity|];
            split; [lia|]; split; [left; reflexivity|];
            intros b Hb Hc;
            rewrite (proj1 (checkCompatible_None_iff _ _ _) Echk b Hb) in Hc;
            discriminate).
  all: destruct (checkCompatible_RewindTo_head _ _ _ _ Hh Echk)
         as [[Hr0 Hrh] Hfix];
       destruct (RewindTo err =? RewindTo le) eqn:Esame;
       [ apply Z.eqb_eq in Esame;
         exists le; split; [reflexivity|];
         split; [lia|]; split; [left; reflexivity|];
         intros b _ _; pose proof (rewindOf_nonneg b); lia
       | apply Z.eqb_neq in Esame ].
  all: destruct (checkCompatible_Some _ _ _ _ Echk) as [b0 [Hin0 [Hc0 Hby0]]];
       pose proof (conflictCount_pos _ _ _ _ Hin0 Hc0) as Hpos;
       destruct Hfuel as [Hz|Hcount]; [lia|].
  - lia.
  - assert (Hr : is_uint64 (RewindTo err))
      by (unfold is_uint64 in *; lia).
    assert (Hnext : RewindTo err = 0
                    \/ (conflictCount c newcfg (RewindTo err) <= fuel)%nat).
    { destruct (rewind_lowers_count _ _ _ _ Hh Echk) as [Hz|Hlt];
        [left; exact Hz | right; lia]. }
    destruct (IH c newcfg (RewindTo err) err Hr eq_refl Hnext)
      as [e [Hrun [He1 [He2 He3]]]].
    exists e. split; [exact Hrun|].
    split; [lia|]. split.
    + right. destruct He2 as [->|[b [Hb [Hcb Hby]]]].
      * exists b0. split; [exact Hin0|]. split; [exact Hc0 | exact Hby0].
      * exists b. split; [exact Hb|]. split; [|exact Hby].
        apply (conflict_mono b (RewindTo err) h); [lia | exact Hcb].
    + intros b Hb Hcb.
      destruct (conflict b (RewindTo err)) eqn:Eb.
      * apply (He3 b Hb Eb).
      * destruct Hh as [_ Hhlt].
        destruct (conflict_rewindOf b h Hhlt Hcb) as [g [Hg [Hgh Hrew]]].
        destruct (Z_le_gt_dec g (RewindTo err)) as [Hgle|Hggt].
        -- rewrite (conflict_persist b h _ g Hcb Hg Hgle) in Eb.
           discriminate.
        -- rewrite Hrew. lia.
Qed.

(** From the start: with [fork_boundary_count] rounds or more the loop
    returns, and what it returns is the lowest conflict. *)
Lemma CheckCompatible_fuel_spec c newcfg h fuel :
  is_uint64 h -> (fork_boundary_count <= fuel)%nat ->
  exists result,
    CheckCompatible_fuel fuel c newcfg h = Some result
    /\ lowestConflict c newcfg h result
    /\ (result = None <-> checkCompatible c newcfg (Some h) = None).
Proof.
  intros Hh Hfuel. unfold CheckCompatible_fuel.
  rewrite CheckCompatible_loop_unfold. unfold loopBody. simpl.
  destruct (checkCompatible c newcfg (Some h)) as [err|] eqn:Echk.
  - simpl.
    destruct fuel as [|fuel]; [unfold fork_boundary_count in Hfuel; lia|].
    destruct (checkCompatible_RewindTo_head _ _ _ _ Hh Echk)
      as [[Hr0 Hrh] _].
    destruct (checkCompatible_Some _ _ _ _ Echk) as [b0 [Hin0 [Hc0 Hby0]]].
    assert (Hr : is_uint64 (RewindTo err))
      by (unfold is_uint64 in *; lia).
    assert (Hnext : RewindTo err = 0
                    \/ (conflictCount c newcfg (RewindTo err) <= fuel)%nat).
    { destruct (rewind_lowers_count _ _ _ _ Hh Echk) as [Hz|Hlt];
        [left; exact Hz | right].
      pose proof (conflictCount_bound c newcfg h). lia. }
    destruct (CheckCompatible_loop_from_last fuel c newcfg (RewindTo err)
                err Hr eq_refl Hnext) as [e [Hrun [He1 [He2 He3]]]].
    exists (Some e). split; [exact Hrun|]. split; [|split; discriminate].
    split.
    + destruct He2 as [->|[b [Hb [Hcb Hby]]]].
      * exists b0. split; [exact Hin0|]. split; [exact Hc0 | exact Hby0].
      * exists b. split; [exact Hb|]. split; [|exact Hby].
        apply (conflict_mono b (RewindTo err) h); [lia | exact Hcb].
    + intros b Hb Hcb.
      destruct (conflict b (RewindTo err)) eqn:Eb.
      * apply (He3 b Hb Eb).
      * destruct Hh as [_ Hhlt].
        destruct (conflict_rewindOf b h Hhlt Hcb) as [g [Hg [Hgh Hrew]]].
        destruct (Z_le_gt_dec g (RewindTo err)) as [Hgle|Hggt].
        -- rewrite (conflict_persist b h _ g Hcb Hg Hgle) in Eb.
           discriminate.
        -- rewrite Hrew. lia.
  - exists None. split; [reflexivity|]. split; [|split; reflexivity].
    simpl. apply checkCompatible_None_iff. exact Echk.
Qed.

Lemma CheckCompatible_fuel_enough c newcfg h fuel :
  is_uint64 h -> (fork_boundary_count <= fuel)%nat ->
  CheckCompatible_fuel fuel c newcfg h = Some (CheckCompatible c newcfg h).
Proof.
  intros Hh Hfuel.
  destruct (CheckCompatible_fuel_spec c newcfg h fork_boundary_count Hh
              (le_n _)) as [result [Hrun _]].
  unfold CheckCompatible. rewrite Hrun.
  unfold CheckCompatible_fuel in *.
  apply (CheckCompatible_loop_more fork_boundary_count); assumption.
Qed.

Lemma CheckCompatible_lowest c newcfg h :
  is_uint64 h ->
  lowestConflict c newcfg h (CheckCompatible c newcfg h)
  /\ (CheckCompatible c newcfg h = None
      <-> checkCompatible c newcfg (Some h) = None).
Proof.
  intros Hh.
  destruct (CheckCompatible_fuel_spec c newcfg h fork_boundary_count Hh
              (le_n _)) as [result [Hrun Hres]].
  unfold CheckCompatible. rewrite Hrun. exact Hres.
Qed.

(** An error that either function returns comes from a boundary that
    conflicts at the head. *)
Lemma returned_error_raisedBy c newcfg h e :
  is_uint64 h ->
  checkCompatible c newcfg (Some h) = Some e
  \/ CheckCompatible c newcfg h = Some e ->
  exists b, In b (boundaries c newcfg) /\ conflict b h = true
            /\ raisedBy e b.
Proof.
  intros Hh [He|He].
  - apply checkCompatible_Some. exact He.
  - destruct (CheckCompatible_lowest c newcfg h Hh) as [Hlow _].
    rewrite He in Hlow. destruct Hlow as [Hb _]. exact Hb.
Qed.

(** ** The states of the loop *)

Lemma reachable_invariant c newcfg height st :
  is_uint64 height -> reachable c newcfg height st ->
  is_uint64 (bhead st) /\ bhead st <= height
  /\ match lasterr st with
     | None => bhead st = height
     | Some le => RewindTo le = bhead st
     end.
Proof.
  intros Hh Hreach. induction Hreach as [|st st' Hreach IH Hbody].
  - simpl. split; [exact Hh|]. split; [lia | reflexivity].
  - destruct IH as [Hst [Hle _]].
    unfold loopBody in Hbody.
    destruct (checkCompatible c newcfg (Some (bhead st))) as [err|] eqn:Echk;
      [|discriminate].
    destruct (sameRewind err (lasterr st)); [discriminate|].
    injection Hbody as <-. simpl.
    destruct (checkCompatible_RewindTo_head _ _ _ _ Hst Echk)
      as [[Hr0 Hrh] _].
    unfold is_uint64 in *. repeat split; lia.
Qed.

(** A round of the loop lowers the head; the one exception is the first
    round at head 0, after which the loop leaves on the next test. *)
Lemma loopBody_lowers c newcfg height st st' :
  is_uint64 height -> reachable c newcfg height st ->
  loopBody c newcfg st = inl st' ->
  bhead st' < bhead st
  \/ (lasterr st = None /\ bhead st = 0 /\ bhead st' = 0
      /\ loopBody c newcfg st' = inr (lasterr st')).
Proof.
  intros Hh Hreach Hbody.
  destruct (reachable_invariant _ _ _ _ Hh Hreach) as [Hst [_ Hinv]].
  unfold loopBody in Hbody.
  destruct (checkCompatible c newcfg (Some (bhead st))) as [err|] eqn:Echk;
    [|discriminate].
  destruct (sameRewind err (lasterr st)) eqn:Esame; [discriminate|].
  injection Hbody as <-. simpl.
  destruct (checkCompatible_RewindTo_head _ _ _ _ Hst Echk)
    as [[Hr0 Hrh] Hfix].
  destruct (Z.eq_dec (RewindTo err) (bhead st)) as [Heq|Hne];
    [right | left; lia].
  destruct (lasterr st) as [le|] eqn:Elast.
  - simpl in Esame. apply Z.eqb_neq in Esame. congruence.
  - specialize (Hfix Heq). split; [reflexivity|].
    split; [exact Hfix|]. split; [lia|].
    unfold loopBody. simpl. rewrite Heq, Hfix in *. rewrite Echk.
    simpl. rewrite Heq. reflexivity.
Qed.

(** ** Configurations with the same fork blocks *)

Lemma checkCompatible_sameForkBlocks c newcfg head :
  sameForkBlocks c newcfg ->
  checkCompatible c newcfg head =
  if IsDAOFork c head
     && negb (Bool.eqb (DAOForkSupport c) (DAOForkSupport newcfg))
  then Some (newCompatError "DAO fork support flag"
               (DAOForkBlock c) (DAOForkBlock newcfg))
  else None.
Proof.
  intros [H1 [H2 [H3 [H4 [H5 [H6 H7]]]]]].
  unfold checkCompatible.
  rewrite <- H1, <- H2, <- H3, <- H4, <- H5, <- H6, <- H7.
  rewrite !isForkIncompatible_refl, configNumEqual_refl.
  simpl. rewrite andb_false_r.
  destruct (IsDAOFork c head
            && negb (Bool.eqb (DAOForkSupport c) (DAOForkSupport newcfg)));
    reflexivity.
Qed.

Lemma checkCompatible_sameSchedule c newcfg head :
  sameSchedule c newcfg -> checkCompatible c newcfg head = None.
Proof.
  intros [Hblocks Hsupport].
  rewrite (checkCompatible_sameForkBlocks _ _ _ Hblocks).
  rewrite Hsupport, Bool.eqb_reflx. simpl. rewrite andb_false_r.
  reflexivity.
Qed.

Lemma eqb_differ (x y : bool) : negb (Bool.eqb x y) = true <-> x <> y.
Proof.
  destruct x, y; simpl; split; intros H; congruence.
Qed.

(** ** Activation *)

(** Every accessor but [IsSaoHao] reads the block of its own fork. *)
Lemma accessor_follows_schedule f acc c h :
  accessor f = Some acc -> f <> SaoHao ->
  acc c (Some h) = isActive_spec c f h.
Proof.
  intros Hacc Hf. unfold isActive_spec.
  destruct f; simpl in Hacc; try discriminate; try congruence;
    injection Hacc as <-;
    match goal with
    | |- ?isF c (Some h) = match ?blk c with _ => _ end =>
        change (isF c (Some h)) with (isForked (blk c) (Some h));
        destruct (blk c); [apply isForked_Some | reflexivity]
    end.
Qed.

(** C1. The activation rule (true iff the fork's own scheduled height
    is set and at or below the queried height) fails for [IsSaoHao]:
    with Frontier scheduled at 0 and SaoHao never scheduled, [IsSaoHao]
    answers true at height 5, where the rule says false. *)
Theorem IsSaoHao_breaks_activation_rule :
  accessor SaoHao = Some IsSaoHao
  /\ scheduled SaoHao frontierOnly = None
  /\ isActive_spec frontierOnly SaoHao 5 = false
  /\ IsSaoHao frontierOnly (Some 5) = true.
Proof.
  repeat split.
Qed.

(** C8. Activation is monotone in the height: an accessor that answers
    true at [h1] answers true at every [h2] above it, so a fork never
    deactivates. *)
Theorem activation_monotone f acc c h1 h2 :
  accessor f = Some acc -> h1 < h2 ->
  acc c (Some h1) = true -> acc c (Some h2) = true.
Proof.
  intros Hacc Hlt.
  destruct f; simpl in Hacc; try discriminate; injection Hacc as <-;
    apply isForked_mono; lia.
Qed.

Lemma activation_monotone_witness :
  IsFrontier frontierOnly (Some 7) = true.
Proof.
  apply (activation_monotone Frontier IsFrontier frontierOnly 3 7).
  - reflexivity.
  - reflexivity.
  - reflexivity.
Defined.

(** C9. [IsSaoHao] is the activation status of the Frontier fork: it
    evaluates [isForked] on [FrontierBlock], agrees with [IsFrontier]
    everywhere, and does not depend on [SaoHaoBlock]. *)
Theorem IsSaoHao_is_IsFrontier c num :
  IsSaoHao c num = isForked (FrontierBlock c) num
  /\ IsSaoHao c num = IsFrontier c num
  /\ forall v, IsSaoHao (set_SaoHaoBlock v c) num = IsSaoHao c num.
Proof.
  repeat split.
Qed.

(** ** Rewind heights *)

(** C2, as the code has it. When [checkCompatible] or [CheckCompatible]
    returns an error, the error carries the stored and the new block of
    one fork boundary, and its rewind height is: the new block less one
    when the stored block is undefined; the lower of the two blocks less
    one when both are defined; in each case 0 instead when that block is
    not positive. *)
Theorem rewind_target c newcfg h e :
  is_uint64 h ->
  checkCompatible c newcfg (Some h) = Some e
  \/ CheckCompatible c newcfg h = Some e ->
  (exists b, In b (boundaries c newcfg)
             /\ StoredConfig e = storedBlock b /\ NewConfig e = newBlock b)
  /\ (forall d, StoredConfig e = None -> NewConfig e = Some d ->
                RewindTo e = Z.max 0 (d - 1))
  /\ (forall s d, StoredConfig e = Some s -> NewConfig e = Some d ->
                  RewindTo e = Z.max 0 (Z.min s d - 1)).
Proof.
  intros Hh He.
  destruct (returned_error_raisedBy _ _ _ _ Hh He) as [b [Hb [Hc Hby]]].
  destruct Hh as [_ Hhlt].
  destruct (conflict_rewindOf b h Hhlt Hc) as [g [Hg [Hgh Hrew]]].
  pose proof (raisedBy_RewindTo _ _ Hby) as Hr.
  destruct Hby as [what ->].
  rewrite newCompatError_StoredConfig, newCompatError_NewConfig.
  split; [exists b; split; [exact Hb | split; reflexivity]|].
  rewrite Hr, Hrew. split.
  - intros d Hs Hn. rewrite Hs, Hn in Hg. simpl in Hg.
    injection Hg as <-. reflexivity.
  - intros s d Hs Hn. rewrite Hs, Hn, rewindBlock_both in Hg.
    injection Hg as <-. reflexivity.
Qed.

Lemma rewind_target_witness :
  exists e, CheckCompatible storedAt100 newAt200 150 = Some e
            /\ RewindTo e = 99.
Proof.
  assert (Hh : is_uint64 150)
    by (unfold is_uint64, uint64_modulus; lia).
  eexists. split; [reflexivity|].
  destruct (rewind_target storedAt100 newAt200 150 _ Hh
              (or_intror eq_refl)) as [_ [_ Hboth]].
  apply (Hboth 100 200); reflexivity.
Defined.

(** C2, as stated, fails.  With the stored block undefined and the new
    block at 100, head 150, the rewind height is 99 and not the new
    block's height 100; with the stored block at 0 and the new one at 5,
    head 10, the rewind height is 0 and not [min 0 5 - 1]. *)
Lemma rewind_target_counterexample :
  (exists e, checkCompatible emptyConfig newAt100 (Some 150) = Some e
             /\ StoredConfig e = None /\ NewConfig e = Some 100
             /\ RewindTo e = 99 /\ RewindTo e <> 100)
  /\ (exists e, checkCompatible storedAt0 newAt5 (Some 10) = Some e
                /\ StoredConfig e = Some 0 /\ NewConfig e = Some 5
                /\ RewindTo e = 0 /\ RewindTo e <> Z.min 0 5 - 1).
Proof.
  split; eexists; (split; [reflexivity|]); simpl;
    repeat split; discriminate.
Qed.

(** C10. The rewind height of a returned error is computed without
    underflow: it is a [uint64]; it is [g - 1], hence below [g], when
    the governing block [g] is positive; and it is 0 when the governing
    block is nil or zero. *)
Theorem RewindTo_no_underflow c newcfg h e :
  is_uint64 h ->
  checkCompatible c newcfg (Some h) = Some e
  \/ CheckCompatible c newcfg h = Some e ->
  is_uint64 (RewindTo e)
  /\ (forall g, rewindBlock (StoredConfig e) (NewConfig e) = Some g ->
                0 < g -> RewindTo e = g - 1 /\ RewindTo e < g)
  /\ (rewindBlock (StoredConfig e) (NewConfig e) = None
      \/ rewindBlock (StoredConfig e) (NewConfig e) = Some 0 ->
      RewindTo e = 0).
Proof.
  intros Hh He.
  destruct (returned_error_raisedBy _ _ _ _ Hh He) as [b [Hb [Hc Hby]]].
  destruct Hh as [_ Hhlt].
  destruct (conflict_rewindOf b h Hhlt Hc) as [g [Hg [Hgh Hrew]]].
  pose proof (raisedBy_RewindTo _ _ Hby) as Hr.
  destruct Hby as [what ->].
  rewrite newCompatError_StoredConfig, newCompatError_NewConfig, Hg.
  split; [apply newCompatError_RewindTo_range|].
  rewrite Hr, Hrew. split.
  - intros g' Hg' Hpos. injection Hg' as <-. lia.
  - intros [Hnil|Hzero]; [discriminate|]. injection Hzero as ->. reflexivity.
Qed.

Lemma RewindTo_no_underflow_witness :
  exists e, checkCompatible storedAt100 newAt200 (Some 150) = Some e
            /\ RewindTo e = 100 - 1 /\ RewindTo e < 100.
Proof.
  assert (Hh : is_uint64 150)
    by (unfold is_uint64, uint64_modulus; lia).
  eexists. split; [reflexivity|].
  destruct (RewindTo_no_underflow storedAt100 newAt200 150 _ Hh
              (or_introl eq_refl)) as [_ [Hpos _]].
  apply (Hpos 100); [reflexivity | lia].
Defined.

(** ** The fixed point *)

(** The disagreements stated on the fields are those of the
    boundaries. *)
Lemma rewindBlock_lowerBlock (s n : option Z) :
  rewindBlock s n = lowerBlock s n.
Proof.
  destruct s as [s|], n as [n|]; try reflexivity.
  apply rewindBlock_both.
Qed.

Lemma disagreeAt_boundary c newcfg g :
  disagreeAt c newcfg g <->
  exists b, In b (boundaries c newcfg) /\ mismatch b
            /\ rewindBlock (storedBlock b) (newBlock b) = Some g.
Proof.
  unfold disagreeAt, boundaries, mismatch. split.
  - intros [[Hm Hg]|[[Hm Hg]|[[Hm Hg]|[[Hm Hg]|[[Hm Hg]|[Hm Hg]]]]]];
      eexists;
      (split;
       [ simpl;
         ((left; reflexivity)
          + (right; left; reflexivity)
          + (right; right; left; reflexivity)
          + (right; right; right; left; reflexivity)
          + (right; right; right; right; left; reflexivity)
          + (right; right; right; right; right; left; reflexivity))
       | simpl; rewrite rewindBlock_lowerBlock; split; [|exact Hg] ]).
    + left. exact Hm.
    + destruct Hm as [Hm|Hm]; [left; exact Hm | right].
      apply eqb_differ. exact Hm.
    + left. exact Hm.
    + left. exact Hm.
    + destruct Hm as [Hm|Hm]; [left; exact Hm | right].
      apply negb_true_iff.
      destruct (configNumEqual (ChainId c) (ChainId newcfg)) eqn:E;
        [|reflexivity].
      apply configNumEqual_true_iff in E. contradiction.
    + left. exact Hm.
  - intros [b [Hb [Hm Hg]]]. simpl in Hb.
    rewrite rewindBlock_lowerBlock in Hg.
    destruct Hb as [<-|[<-|[<-|[<-|[<-|[<-|[]]]]]]];
      simpl in Hm, Hg.
    + left. split; [|exact Hg].
      destruct Hm as [Hm|Hm]; [exact Hm | discriminate].
    + right; left. split; [|exact Hg].
      destruct Hm as [Hm|Hm]; [left; exact Hm | right].
      apply eqb_differ. exact Hm.
    + right; right; left. split; [|exact Hg].
      destruct Hm as [Hm|Hm]; [exact Hm | discriminate].
    + right; right; right; left. split; [|exact Hg].
      destruct Hm as [Hm|Hm]; [exact Hm | discriminate].
    + right; right; right; right; left. split; [|exact Hg].
      destruct Hm as [Hm|Hm]; [left; exact Hm | right].
      apply negb_true_iff in Hm. intros Heq.
      apply configNumEqual_true_iff in Heq. congruence.
    + right; right; right; right; right. split; [|exact Hg].
      destruct Hm as [Hm|Hm]; [exact Hm | discriminate].
Qed.

Lemma CheckCompatible_rewindsBelowLowest c newcfg h :
  is_uint64 h ->
  rewindsBelowLowest c newcfg h (CheckCompatible c newcfg h).
Proof.
  intros Hh.
  destruct (CheckCompatible_lowest c newcfg h Hh) as [Hlow _].
  destruct Hh as [Hh0 Hhlt].
  destruct (CheckCompatible c newcfg h) as [e|]; simpl in *.
  - destruct Hlow as [[b [Hb [Hc Hby]]] Hmin].
    destruct (conflict_rewindOf b h Hhlt Hc) as [g [Hg [Hle Hrew]]].
    exists g. split; [|split; [exact Hle|split]].
    + apply disagreeAt_boundary. exists b.
      split; [exact Hb|]. split; [|exact Hg].
      apply conflict_iff in Hc. destruct Hc as [Hm _]. exact Hm.
    + rewrite (raisedBy_RewindTo _ _ Hby). exact Hrew.
    + intros g' Hd Hle'.
      apply disagreeAt_boundary in Hd. destruct Hd as [b' [Hb' [Hm' Hg']]].
      assert (Hc' : conflict b' h = true).
      { apply conflict_iff. split; [exact Hm'|]. exists g'.
        split; [exact Hg' | exact Hle']. }
      rewrite <- (newCompatError_RewindTo_max EmptyString
                    (storedBlock b') (newBlock b') g' Hg') by lia.
      apply (Hmin b' Hb' Hc').
  - intros g Hd.
    apply disagreeAt_boundary in Hd. destruct Hd as [b [Hb [Hm Hg]]].
    destruct (Z_lt_le_dec h g) as [Hlt|Hle]; [exact Hlt|].
    assert (Hc : conflict b h = true).
    { apply conflict_iff. split; [exact Hm|]. exists g.
      split; [exact Hg | exact Hle]. }
    rewrite (Hlow b Hb) in Hc. discriminate.
Qed.

(** C3, as the code has it. From every [uint64] head the loop of
    [CheckCompatible] returns after going round at most
    [fork_boundary_count] times, once for each of the six boundaries
    compared, that is after at most one pass of [checkCompatible] more
    than there are boundaries.  A pass that goes round lowers the head,
    except the first pass at head 0, which leaves the head at 0, and
    then the next pass leaves the loop because the rewind height did
    not change.  What is returned is nothing when every disagreement of
    the two configurations lies above the head; else an error whose
    rewind height is [max 0 (g - 1)] for a disagreement [g] at or below
    the head, and is at most that of every other such disagreement. *)
Theorem CheckCompatible_terminates_at_lowest c newcfg height :
  is_uint64 height ->
  List.length (boundaries c newcfg) = fork_boundary_count
  /\ (forall fuel, (fork_boundary_count <= fuel)%nat ->
        CheckCompatible_fuel fuel c newcfg height
        = Some (CheckCompatible c newcfg height))
  /\ (forall st st', reachable c newcfg height st ->
        loopBody c newcfg st = inl st' ->
        bhead st' < bhead st
        \/ (lasterr st = None /\ bhead st = 0 /\ bhead st' = 0
            /\ loopBody c newcfg st' = inr (lasterr st')))
  /\ rewindsBelowLowest c newcfg height (CheckCompatible c newcfg height).
Proof.
  intros Hh. split; [reflexivity|]. split; [|split].
  - intros fuel Hfuel. apply CheckCompatible_fuel_enough; assumption.
  - intros st st'. apply loopBody_lowers. exact Hh.
  - apply CheckCompatible_rewindsBelowLowest. exact Hh.
Qed.

Lemma CheckCompatible_terminates_at_lowest_witness :
  exists e,
    CheckCompatible_fuel 6 staircaseStored staircaseNew 100 = Some (Some e)
    /\ RewindTo e = 9.
Proof.
  assert (Hh : is_uint64 100)
    by (unfold is_uint64, uint64_modulus; lia).
  destruct (CheckCompatible_terminates_at_lowest staircaseStored
              staircaseNew 100 Hh) as [_ [Hfuel [_ Hlow]]].
  specialize (Hfuel 6%nat (le_n _)).
  assert (Hbyz : disagreeAt staircaseStored staircaseNew 10).
  { right; right; right; right; right.
    split; [discriminate | reflexivity]. }
  destruct (CheckCompatible staircaseStored staircaseNew 100) as [e|].
  - exists e. split; [exact Hfuel|].
    destruct Hlow as [g [Hd [Hle [Hr Hmin]]]].
    specialize (Hmin 10 Hbyz ltac:(lia)).
    rewrite Hr in *.
    destruct Hd as [[_ Hg]|[[_ Hg]|[[_ Hg]|[[_ Hg]|[[_ Hg]|[_ Hg]]]]]];
      injection Hg as <-; lia.
  - specialize (Hlow 10 Hbyz). lia.
Defined.

(** C3, as stated, fails.  From head 0, with a fork at block 0 that the
    new configuration moves to 5, the first pass neither lowers the head
    nor leaves the loop: it goes round with the head still at 0.  And
    with six boundaries in conflict, each below the one before, six
    passes do not end the loop: the seventh does. *)
Lemma CheckCompatible_round_counterexample :
  (exists err,
     loopBody storedAt0 newAt5 (mkLoopState 0 None)
     = inl (mkLoopState 0 (Some err))
     /\ ~ (bhead (mkLoopState 0 (Some err)) < bhead (mkLoopState 0 None)))
  /\ (List.length (boundaries staircaseStored staircaseNew) = 6%nat
      /\ CheckCompatible_fuel 5 staircaseStored staircaseNew 100 = None
      /\ option_map (option_map RewindTo)
           (CheckCompatible_fuel 6 staircaseStored staircaseNew 100)
         = Some (Some 9)).
Proof.
  split.
  - eexists. split; [reflexivity|]. simpl. lia.
  - repeat split.
Qed.

(** The bound is reached: six boundaries in conflict, each below the
    one before, take six rounds. *)
Example staircase_needs_six_rounds :
  CheckCompatible_fuel 5 staircaseStored staircaseNew 100 = None
  /\ option_map (option_map RewindTo)
       (CheckCompatible_fuel 6 staircaseStored staircaseNew 100)
     = Some (Some 9).
Proof. split; reflexivity. Qed.

(** ** The DAO support flag *)

(** C4, as the code has it. [checkCompatible] reports the support-flag
    conflict exactly when the flags differ, the DAO fork is active at
    head under the stored configuration, and neither check before it
    (the Homestead block, the DAO block) reports a conflict; and when
    the DAO fork is not active at head, configurations that differ in
    the support flag alone give no error. *)
Theorem support_flag_conflict c newcfg h :
  ((exists e, checkCompatible c newcfg (Some h) = Some e
              /\ What e = "DAO fork support flag"%string)
   <-> (DAOForkSupport c <> DAOForkSupport newcfg
        /\ IsDAOFork c (Some h) = true
        /\ isForkIncompatible (HomesteadBlock c) (HomesteadBlock newcfg)
             (Some h) = false
        /\ isForkIncompatible (DAOForkBlock c) (DAOForkBlock newcfg)
             (Some h) = false))
  /\ (IsDAOFork c (Some h) = false -> sameForkBlocks c newcfg ->
      checkCompatible c newcfg (Some h) = None).
Proof.
  split; [split|].
  - intros [e [He Hw]]. unfold checkCompatible in He.
    destruct (isForkIncompatible (HomesteadBlock c) (HomesteadBlock newcfg)
                (Some h)) eqn:E1;
      [injection He as <-; rewrite newCompatError_What in Hw; discriminate|].
    destruct (isForkIncompatible (DAOForkBlock c) (DAOForkBlock newcfg)
                (Some h)) eqn:E2;
      [injection He as <-; rewrite newCompatError_What in Hw; discriminate|].
    destruct (IsDAOFork c (Some h)
              && negb (Bool.eqb (DAOForkSupport c) (DAOForkSupport newcfg)))
      eqn:E3.
    + apply andb_true_iff in E3. destruct E3 as [Hactive Hdiff].
      apply eqb_differ in Hdiff. repeat split; assumption.
    + repeat match type of He with
      | (if ?cond then _ else _) = Some _ =>
          destruct cond;
          [injection He as <-; rewrite newCompatError_What in Hw;
           discriminate|]
      end.
      discriminate.
  - intros [Hdiff [Hactive [E1 E2]]].
    unfold checkCompatible. rewrite E1, E2, Hactive.
    rewrite (proj2 (eqb_differ _ _) Hdiff). simpl.
    eexists. split; [reflexivity | apply newCompatError_What].
  - intros Hinactive Hsame.
    rewrite (checkCompatible_sameForkBlocks _ _ _ Hsame), Hinactive.
    reflexivity.
Qed.

Lemma support_flag_conflict_witness :
  (exists e, checkCompatible dao50Supported dao50Opposed (Some 50) = Some e
             /\ What e = "DAO fork support flag"%string)
  /\ checkCompatible dao50Supported dao50Opposed (Some 49) = None.
Proof.
  split.
  - apply (proj1 (support_flag_conflict dao50Supported dao50Opposed 50)).
    repeat split. discriminate.
  - apply (proj2 (support_flag_conflict dao50Supported dao50Opposed 49)).
    + reflexivity.
    + repeat split.
Defined.

(** C4, as stated, fails: the flags differ and the DAO fork is active at
    head 10, yet the error reported is the Homestead one, found first. *)
Lemma support_flag_conflict_counterexample :
  DAOForkSupport daoSupported <> DAOForkSupport daoOpposedHomestead5
  /\ IsDAOFork daoSupported (Some 10) = true
  /\ option_map What
       (checkCompatible daoSupported daoOpposedHomestead5 (Some 10))
     = Some "Homestead fork block"%string
  /\ ~ (exists e,
          checkCompatible daoSupported daoOpposedHomestead5 (Some 10)
          = Some e
          /\ What e = "DAO fork support flag"%string).
Proof.
  split; [discriminate|]. split; [reflexivity|]. split; [reflexivity|].
  intros [e [He Hw]]. vm_compute in He. injection He as <-.
  discriminate.
Qed.

(** ** Identical schedules *)

(** C6. Two configurations that agree on the fork blocks, the chain
    identifier and the support flag are compatible at every head: one
    pass finds no error, so the loop leaves at its first test and
    [CheckCompatible] returns nothing. *)
Theorem identical_schedules_compatible c newcfg h :
  sameSchedule c newcfg ->
  checkCompatible c newcfg (Some h) = None
  /\ (forall fuel, CheckCompatible_fuel fuel c newcfg h = Some None)
  /\ CheckCompatible c newcfg h = None.
Proof.
  intros Hsame.
  pose proof (checkCompatible_sameSchedule c newcfg (Some h) Hsame) as Hnone.
  assert (Hfuel : forall fuel,
             CheckCompatible_fuel fuel c newcfg h = Some None).
  { intros fuel. unfold CheckCompatible_fuel.
    rewrite CheckCompatible_loop_unfold. unfold loopBody. simpl.
    rewrite Hnone. reflexivity. }
  split; [exact Hnone|]. split; [exact Hfuel|].
  unfold CheckCompatible. rewrite Hfuel. reflexivity.
Qed.

Lemma identical_schedules_compatible_witness :
  CheckCompatible staircaseStored staircaseStored 100 = None.
Proof.
  apply (identical_schedules_compatible staircaseStored staircaseStored 100).
  repeat split.
Defined.

End ParamsTheory.

(** * Properties of the node service *)

Module RueTheory.

Import Params Rue.

(** ** Engine selection *)

(** Without a proof-of-authority sub-configuration the engine is one of
    the proof-of-work ones, chosen by the mode. *)
Lemma CreateConsensusEngine_proof_of_work {Database : Type}
  (ctx : ServiceContext) (config : RuehashConfig)
  (chainConfig : ChainConfig) (db : Database) :
  Clique chainConfig = None ->
  isProofOfAuthority (fst (CreateConsensusEngine ctx config chainConfig db))
  = false.
Proof.
  intros Hnone. unfold CreateConsensusEngine. rewrite Hnone.
  destruct (Mode_eqb (PowMode config) ModeFake); [reflexivity|].
  destruct (Mode_eqb (PowMode config) ModeTest); [reflexivity|].
  destruct (Mode_eqb (PowMode config) ModeShared); reflexivity.
Qed.

(** C5. A chain configuration with a proof-of-authority sub-configuration
    gives the proof-of-authority engine built from that sub-configuration
    and the database, whatever the mode and the rest of the engine
    configuration, and logs no warning. *)
Theorem clique_config_wins {Database : Type} (ctx : ServiceContext)
  (config : RuehashConfig) (chainConfig : ChainConfig) (db : Database)
  (cliqueConfig : CliqueConfig) :
  Clique chainConfig = Some cliqueConfig ->
  CreateConsensusEngine ctx config chainConfig db
  = (clique_New cliqueConfig db, [])
  /\ isProofOfAuthority
       (fst (CreateConsensusEngine ctx config chainConfig db)) = true.
Proof.
  intros Hclique. unfold CreateConsensusEngine. rewrite Hclique.
  split; reflexivity.
Qed.

Lemma clique_config_wins_witness :
  CreateConsensusEngine plainContext fakeModeConfig cliqueChain tt
  = (clique_New (mkCliqueConfig 0 30000) tt, [])
  /\ isProofOfAuthority
       (fst (CreateConsensusEngine plainContext fakeModeConfig
               cliqueChain tt)) = true.
Proof.
  apply (clique_config_wins plainContext fakeModeConfig cliqueChain tt
           (mkCliqueConfig 0 30000)).
  reflexivity.
Defined.

(** ** The default beneficiary *)

Lemma Ruebase_explicit s :
  ruebase s <> zeroAddress -> Ruebase s = ((ruebase s, None), s).
Proof.
  intros Hset. unfold Ruebase.
  destruct (Z.eqb_spec (ruebase s) zeroAddress) as [Heq|_];
    [contradiction | reflexivity].
Qed.

Lemma managedAccounts_nil s :
  managedAccounts s = [] ->
  Wallets (accountManager s) = []
  \/ exists wallet0 wallets,
       Wallets (accountManager s) = wallet0 :: wallets
       /\ Accounts wallet0 = [].
Proof.
  unfold managedAccounts.
  destruct (Wallets (accountManager s)) as [|wallet0 wallets];
    [left; reflexivity|].
  simpl. intros Hnil. apply app_eq_nil in Hnil. destruct Hnil as [H0 _].
  right. exists wallet0, wallets. split; [reflexivity | exact H0].
Qed.

(** C7, as the code has it. [Ruebase] returns the explicit beneficiary
    when it is not the zero address, asking nothing.  Otherwise, when
    the first wallet has an account, it returns the address of that
    wallet's first account and stores it as the beneficiary, and if that
    address is not zero a second call returns it and leaves the state
    as it is, the calls made to the account manager included.  Otherwise,
    when there is no wallet or the first wallet has no account, as when
    no account is managed at all, it fails with the error
    [errRuebaseMissing] and stores nothing. *)
Theorem Ruebase_resolves s :
  (ruebase s <> zeroAddress -> Ruebase s = ((ruebase s, None), s))
  /\ (forall wallet0 wallets account0 accounts,
        ruebase s = zeroAddress ->
        Wallets (accountManager s) = wallet0 :: wallets ->
        Accounts wallet0 = account0 :: accounts ->
        fst (Ruebase s) = (Address account0, None)
        /\ ruebase (snd (Ruebase s)) = Address account0
        /\ accountManager (snd (Ruebase s)) = accountManager s
        /\ (Address account0 <> zeroAddress ->
            Ruebase (snd (Ruebase s))
            = ((Address account0, None), snd (Ruebase s))
            /\ accountQueries (snd (Ruebase (snd (Ruebase s))))
               = accountQueries (snd (Ruebase s))))
  /\ (ruebase s = zeroAddress ->
      Wallets (accountManager s) = []
      \/ (exists wallet0 wallets,
            Wallets (accountManager s) = wallet0 :: wallets
            /\ Accounts wallet0 = []) ->
      fst (Ruebase s) = (zeroAddress, Some errRuebaseMissing)
      /\ ruebase (snd (Ruebase s)) = zeroAddress)
  /\ (ruebase s = zeroAddress -> managedAccounts s = [] ->
      fst (Ruebase s) = (zeroAddress, Some errRuebaseMissing)).
Proof.
  assert (Hfail : ruebase s = zeroAddress ->
            Wallets (accountManager s) = []
            \/ (exists wallet0 wallets,
                  Wallets (accountManager s) = wallet0 :: wallets
                  /\ Accounts wallet0 = []) ->
            fst (Ruebase s) = (zeroAddress, Some errRuebaseMissing)
            /\ ruebase (snd (Ruebase s)) = zeroAddress).
  { intros Hzero Hnone. unfold Ruebase. rewrite Hzero. simpl.
    destruct Hnone as [Hw|[wallet0 [wallets [Hw Ha]]]]; rewrite Hw.
    - split; reflexivity.
    - rewrite Ha. split; reflexivity. }
  split; [apply Ruebase_explicit|]. split; [|split].
  - intros wallet0 wallets account0 accounts Hzero Hw Ha.
    assert (Hrun : Ruebase s
                   = ((Address account0, None),
                      mkRueState (Address account0) (accountManager s)
                        ((events s ++ [CallWallets]) ++ [CallAccounts]
                         ++ [LogInfo "Ruebase automatically configured"
                               (Address account0)]))).
    { unfold Ruebase. rewrite Hzero, Hw, Ha. simpl.
      rewrite <- !app_assoc. reflexivity. }
    rewrite Hrun. simpl. repeat split.
    + apply Ruebase_explicit. simpl. assumption.
    + rewrite Ruebase_explicit by (simpl; assumption). reflexivity.
  - exact Hfail.
  - intros Hzero Hnil. apply Hfail; [exact Hzero|].
    apply managedAccounts_nil. exact Hnil.
Qed.

Lemma Ruebase_resolves_witness :
  Ruebase explicitBeneficiary = ((9, None), explicitBeneficiary)
  /\ (fst (Ruebase oneAccount) = (7, None)
      /\ Ruebase (snd (Ruebase oneAccount))
         = ((7, None), snd (Ruebase oneAccount)))
  /\ fst (Ruebase noWallets) = (zeroAddress, Some errRuebaseMissing).
Proof.
  split; [|split].
  - apply (proj1 (Ruebase_resolves explicitBeneficiary)). discriminate.
  - destruct (proj1 (proj2 (Ruebase_resolves oneAccount))
                (mkWallet [account7]) [] account7 []
                eq_refl eq_refl eq_refl) as [Hfirst [_ [_ Hsecond]]].
    split; [exact Hfirst|].
    apply Hsecond. discriminate.
  - apply (proj2 (proj2 (proj2 (Ruebase_resolves noWallets))));
      reflexivity.
Defined.

(** C7, as stated, fails.  An account is managed, but the first wallet
    is empty: [Ruebase] fails.  The first account has the zero address:
    it is returned and stored, and the second call asks the account
    manager again.  And the error, when there is no account, reads
    otherwise than the one named. *)
Lemma Ruebase_counterexample :
  (ruebase emptyFirstWallet = zeroAddress
   /\ managedAccounts emptyFirstWallet = [account7]
   /\ fst (Ruebase emptyFirstWallet) = (zeroAddress, Some errRuebaseMissing))
  /\ (fst (Ruebase zeroAddressAccount) = (zeroAddress, None)
      /\ accountQueries (snd (Ruebase zeroAddressAccount)) = 2%nat
      /\ accountQueries (snd (Ruebase (snd (Ruebase zeroAddressAccount))))
         = 4%nat)
  /\ (managedAccounts noWallets = []
      /\ snd (fst (Ruebase noWallets))
         = Some "ruebase must be explicitly specified"%string
      /\ snd (fst (Ruebase noWallets))
         <> Some "no beneficiary configured"%string).
Proof.
  repeat split. discriminate.
Qed.

End RueTheory.

(** * More properties of the chain configuration *)

Module ParamsMoreTheory.

Import Params ParamsMore ParamsTheory.

(** ** When two blocks are incompatible *)

(** X1. A fork scheduled at [s1] cannot be rescheduled to [s2] at head
    [h] exactly when the two blocks differ and the block that
    [newCompatError] would rewind below (the one that is set, the lower
    when both are) is at or below [h]; with a nil head nothing is
    incompatible. *)
Theorem isForkIncompatible_iff (s1 s2 : option Z) (h : Z) :
  (isForkIncompatible s1 s2 (Some h) = true <->
   s1 <> s2 /\ exists g, rewindBlock s1 s2 = Some g /\ g <= h)
  /\ isForkIncompatible s1 s2 None = false.
Proof.
  split.
  - pose proof (conflict_iff (mkBoundary s1 s2 false) h) as Hc.
    unfold conflict, mismatch in Hc. simpl in Hc.
    rewrite andb_false_r, orb_false_r in Hc. rewrite Hc.
    split; intros [Hm Hg]; (split; [|exact Hg]).
    + destruct Hm as [Hm|Hm]; [exact Hm | discriminate].
    + left. exact Hm.
  - unfold isForkIncompatible. rewrite !isForked_nil_head. reflexivity.
Qed.

Lemma isForkIncompatible_iff_witness :
  isForkIncompatible (Some 100) (Some 200) (Some 150) = true.
Proof.
  apply (proj1 (isForkIncompatible_iff (Some 100) (Some 200) 150)).
  split; [discriminate|].
  exists 100. split; [reflexivity | lia].
Defined.

(** ** Compatible configurations *)

(** X2. One pass finds no error at head [h] exactly when every boundary
    on which the two configurations disagree governs a block above
    [h]. *)
Theorem checkCompatible_nil_iff c newcfg h :
  checkCompatible c newcfg (Some h) = None <->
  forall b, In b (boundaries c newcfg) -> mismatch b ->
            notYet (rewindBlock (storedBlock b) (newBlock b)) h.
Proof.
  rewrite checkCompatible_None_iff. split; intros Hall b Hb.
  - intros Hm. specialize (Hall b Hb).
    destruct (rewindBlock (storedBlock b) (newBlock b)) as [g|] eqn:Eg;
      simpl; [|exact I].
    destruct (Z_lt_le_dec h g) as [Hlt|Hle]; [exact Hlt|].
    assert (Hc : conflict b h = true).
    { apply conflict_iff. split; [exact Hm|]. exists g.
      split; [exact Eg | exact Hle]. }
    rewrite Hall in Hc. discriminate.
  - destruct (conflict b h) eqn:Ec; [|reflexivity].
    apply conflict_iff in Ec. destruct Ec as [Hm [g [Eg Hle]]].
    specialize (Hall b Hb Hm). rewrite Eg in Hall. simpl in Hall. lia.
Qed.

Lemma checkCompatible_nil_iff_witness :
  checkCompatible storedAt100 newAt200 (Some 99) = None.
Proof.
  apply (proj2 (checkCompatible_nil_iff storedAt100 newAt200 99)).
  intros b Hb _. simpl in Hb.
  repeat (destruct Hb as [<-|Hb]; [simpl; try lia; exact I|]).
  contradiction.
Defined.

(** X3. Compatibility goes down with the head: configurations that one
    pass finds compatible at [h] are compatible at every head below, for
    one pass and for [CheckCompatible]; and one pass with a nil head
    finds every two configurations compatible. *)
Theorem compatible_below c newcfg h r :
  (r <= h -> checkCompatible c newcfg (Some h) = None ->
   checkCompatible c newcfg (Some r) = None)
  /\ (is_uint64 r -> r <= h -> checkCompatible c newcfg (Some h) = None ->
      CheckCompatible c newcfg r = None)
  /\ checkCompatible c newcfg None = None.
Proof.
  assert (Hlow : r <= h -> checkCompatible c newcfg (Some h) = None ->
                 checkCompatible c newcfg (Some r) = None).
  { intros Hle Hnone. apply checkCompatible_None_iff. intros b Hb.
    destruct (conflict b r) eqn:Ec; [|reflexivity].
    rewrite <- (proj1 (checkCompatible_None_iff _ _ _) Hnone b Hb).
    symmetry. apply (conflict_mono b r h Hle Ec). }
  split; [exact Hlow|]. split.
  - intros Hr Hle Hnone.
    apply (proj2 (CheckCompatible_lowest c newcfg r Hr)).
    apply Hlow; assumption.
  - unfold checkCompatible, isForkIncompatible, IsDAOFork, IsEIP158.
    rewrite !isForked_nil_head. reflexivity.
Qed.

Lemma compatible_below_witness :
  checkCompatible storedAt100 newAt200 (Some 50) = None
  /\ CheckCompatible storedAt100 newAt200 50 = None
  /\ checkCompatible storedAt0 newAt5 None = None.
Proof.
  split; [|split].
  - apply (proj1 (compatible_below storedAt100 newAt200 99 50));
      [lia | reflexivity].
  - apply (proj1 (proj2 (compatible_below storedAt100 newAt200 99 50)));
      [unfold is_uint64, uint64_modulus; lia | lia | reflexivity].
  - apply (proj2 (proj2 (compatible_below storedAt0 newAt5 0 0))).
Defined.

(** ** Stored and new configuration exchanged *)

Lemma rewindBlock_sym (s n : option Z) : rewindBlock s n = rewindBlock n s.
Proof.
  destruct s as [s|], n as [n|]; simpl; try reflexivity.
  cmp_cases; f_equal; lia.
Qed.

Lemma newCompatError_swap what s n :
  newCompatError what n s = swapError (newCompatError what s n).
Proof.
  unfold newCompatError. rewrite (rewindBlock_sym n s).
  destruct (rewindBlock s n) as [r|]; [|reflexivity].
  destruct (Sign r >? 0); reflexivity.
Qed.

Lemma configNumEqual_sym (x y : option Z) :
  configNumEqual x y = configNumEqual y x.
Proof.
  destruct x as [x|], y as [y|]; simpl; try reflexivity.
  rewrite !Cmp_eq0. apply Z.eqb_sym.
Qed.

Lemma isForkIncompatible_sym (s1 s2 head : option Z) :
  isForkIncompatible s1 s2 head = isForkIncompatible s2 s1 head.
Proof.
  unfold isForkIncompatible.
  rewrite (configNumEqual_sym s1 s2), (orb_comm (isForked s1 head)).
  reflexivity.
Qed.

(** Where the blocks are not incompatible, the stored and the new fork
    are active together. *)
Lemma isForked_agree (s1 s2 head : option Z) :
  isForkIncompatible s1 s2 head = false ->
  isForked s1 head = isForked s2 head.
Proof.
  destruct head as [h|]; [|rewrite !isForked_nil_head; reflexivity].
  destruct s1 as [s1|], s2 as [s2|];
    unfold isForkIncompatible, isForked, configNumEqual;
    cmp_cases; simpl; intros Hf;
    first [reflexivity | discriminate | lia].
Qed.

Lemma sameRewind_swap err last :
  sameRewind (swapError err) (option_map swapError last)
  = sameRewind err last.
Proof. destruct last; reflexivity. Qed.

Lemma checkCompatible_swap c newcfg head :
  checkCompatible newcfg c head
  = option_map swapError (checkCompatible c newcfg head).
Proof.
  unfold checkCompatible, IsDAOFork, IsEIP158.
  rewrite (isForkIncompatible_sym (HomesteadBlock newcfg)),
    (isForkIncompatible_sym (DAOForkBlock newcfg)),
    (isForkIncompatible_sym (EIP150Block newcfg)),
    (isForkIncompatible_sym (EIP155Block newcfg)),
    (isForkIncompatible_sym (EIP158Block newcfg)),
    (isForkIncompatible_sym (ByzantiumBlock newcfg)),
    (configNumEqual_sym (ChainId newcfg)).
  destruct (isForkIncompatible (HomesteadBlock c) (HomesteadBlock newcfg)
              head); [simpl; f_equal; apply newCompatError_swap|].
  destruct (isForkIncompatible (DAOForkBlock c) (DAOForkBlock newcfg) head)
    eqn:Edao; [simpl; f_equal; apply newCompatError_swap|].
  rewrite <- (isForked_agree _ _ _ Edao).
  replace (Bool.eqb (DAOForkSupport newcfg) (DAOForkSupport c))
    with (Bool.eqb (DAOForkSupport c) (DAOForkSupport newcfg))
    by (destruct (DAOForkSupport c), (DAOForkSupport newcfg); reflexivity).
  destruct (isForked (DAOForkBlock c) head
            && negb (Bool.eqb (DAOForkSupport c) (DAOForkSupport newcfg)));
    [simpl; f_equal; apply newCompatError_swap|].
  destruct (isForkIncompatible (EIP150Block c) (EIP150Block newcfg) head);
    [simpl; f_equal; apply newCompatError_swap|].
  destruct (isForkIncompatible (EIP155Block c) (EIP155Block newcfg) head);
    [simpl; f_equal; apply newCompatError_swap|].
  destruct (isForkIncompatible (EIP158Block c) (EIP158Block newcfg) head)
    eqn:E158; [simpl; f_equal; apply newCompatError_swap|].
  rewrite <- (isForked_agree _ _ _ E158).
  destruct (isForked (EIP158Block c) head
            && negb (configNumEqual (ChainId c) (ChainId newcfg)));
    [simpl; f_equal; apply newCompatError_swap|].
  destruct (isForkIncompatible (ByzantiumBlock c) (ByzantiumBlock newcfg)
              head); [simpl; f_equal; apply newCompatError_swap|].
  reflexivity.
Qed.

Lemma CheckCompatible_loop_swap fuel : forall c newcfg h last,
  CheckCompatible_loop fuel newcfg c
    (mkLoopState h (option_map swapError last))
  = option_map (option_map swapError)
      (CheckCompatible_loop fuel c newcfg (mkLoopState h last)).
Proof.
  induction fuel as [|fuel IH]; intros c newcfg h last;
    rewrite !CheckCompatible_loop_unfold; unfold loopBody; simpl;
    rewrite checkCompatible_swap;
    destruct (checkCompatible c newcfg (Some h)) as [err|]; simpl;
    try reflexivity;
    rewrite sameRewind_swap;
    destruct (sameRewind err last); try reflexivity.
  apply (IH c newcfg (RewindTo err) (Some err)).
Qed.

(** X4. The check does not depend on which configuration is the stored
    one: with the two exchanged, one pass and [CheckCompatible] give the
    same verdict, under the same name and with the same rewind height,
    the stored and the new block of the error exchanged. *)
Theorem CheckCompatible_swap c newcfg head h :
  checkCompatible newcfg c head
  = option_map swapError (checkCompatible c newcfg head)
  /\ CheckCompatible newcfg c h
     = option_map swapError (CheckCompatible c newcfg h).
Proof.
  split; [apply checkCompatible_swap|].
  unfold CheckCompatible, CheckCompatible_fuel.
  pose proof (CheckCompatible_loop_swap fork_boundary_count c newcfg h None)
    as Hswap.
  simpl option_map in Hswap at 1. rewrite Hswap.
  destruct (CheckCompatible_loop fork_boundary_count c newcfg
              (mkLoopState h None)) as [[e|]|]; reflexivity.
Qed.

(** ** Where the rewind height lies *)

Lemma CheckCompatible_loop_exit fuel : forall c newcfg h last e,
  is_uint64 h -> RewindTo last = h ->
  CheckCompatible_loop fuel c newcfg (mkLoopState h (Some last))
  = Some (Some e) ->
  checkCompatible c newcfg (Some (RewindTo e)) = None \/ RewindTo e = 0.
Proof.
  induction fuel as [|fuel IH]; intros c newcfg h last e Hh Hlast;
    rewrite CheckCompatible_loop_unfold; unfold loopBody; simpl;
    destruct (checkCompatible c newcfg (Some h)) as [err|] eqn:Echk;
    try (intros Hrun; injection Hrun as <-; left; rewrite Hlast;
         exact Echk);
    destruct (checkCompatible_RewindTo_head _ _ _ _ Hh Echk)
      as [[Hr0 Hrh] Hfix];
    (destruct (RewindTo err =? RewindTo last) eqn:Esame;
     [ apply Z.eqb_eq in Esame; intros Hrun; injection Hrun as <-;
       right; rewrite Hlast; apply Hfix; congruence |]).
  - discriminate.
  - apply IH; [unfold is_uint64 in *; lia | reflexivity].
Qed.

Lemma CheckCompatible_fuel_exit fuel c newcfg h e :
  is_uint64 h ->
  CheckCompatible_fuel fuel c newcfg h = Some (Some e) ->
  checkCompatible c newcfg (Some (RewindTo e)) = None \/ RewindTo e = 0.
Proof.
  intros Hh. unfold CheckCompatible_fuel.
  rewrite CheckCompatible_loop_unfold. unfold loopBody.
  cbn [bhead lasterr].
  destruct (checkCompatible c newcfg (Some h)) as [err|] eqn:Echk;
    [|discriminate].
  cbn [sameRewind].
  destruct fuel as [|fuel]; [discriminate|].
  destruct (checkCompatible_RewindTo_head _ _ _ _ Hh Echk)
    as [[Hr0 Hrh] _].
  apply CheckCompatible_loop_exit;
    [unfold is_uint64 in *; lia | reflexivity].
Qed.

Lemma CheckCompatible_RewindTo_head c newcfg h e :
  is_uint64 h -> CheckCompatible c newcfg h = Some e ->
  0 <= RewindTo e <= h /\ (0 < h -> RewindTo e < h).
Proof.
  intros Hh He.
  destruct (returned_error_raisedBy c newcfg h e Hh (or_intror He))
    as [b [_ [Hc Hby]]].
  rewrite (raisedBy_RewindTo _ _ Hby).
  destruct Hh as [Hh0 Hhlt].
  destruct (conflict_rewindOf b h Hhlt Hc) as [g [_ [Hle ->]]]. lia.
Qed.

(** X5. The height [CheckCompatible] says to rewind to is a [uint64] at
    or below the head, and below it unless the head is 0. *)
Theorem rewind_below_head c newcfg h e :
  is_uint64 h -> CheckCompatible c newcfg h = Some e ->
  is_uint64 (RewindTo e)
  /\ RewindTo e <= h /\ (0 < h -> RewindTo e < h).
Proof.
  intros Hh He.
  destruct (CheckCompatible_RewindTo_head c newcfg h e Hh He)
    as [[Hlo Hhi] Hlt].
  split; [|split; assumption].
  unfold is_uint64 in *. lia.
Qed.

Lemma rewind_below_head_witness :
  exists e, CheckCompatible staircaseStored staircaseNew 100 = Some e
            /\ RewindTo e <= 100.
Proof.
  eexists. split; [reflexivity|].
  apply (rewind_below_head staircaseStored staircaseNew 100).
  - unfold is_uint64, uint64_modulus. lia.
  - reflexivity.
Defined.

(** X6. Rewinding settles the conflict: at the height [CheckCompatible]
    says to rewind to, one pass finds no error and [CheckCompatible]
    returns nothing, unless that height is 0 (a conflict at the first
    block cannot be rewound away). *)
Theorem rewind_settles c newcfg h e :
  is_uint64 h -> CheckCompatible c newcfg h = Some e ->
  (checkCompatible c newcfg (Some (RewindTo e)) = None
   /\ CheckCompatible c newcfg (RewindTo e) = None)
  \/ RewindTo e = 0.
Proof.
  intros Hh He.
  assert (Hexit : checkCompatible c newcfg (Some (RewindTo e)) = None
                  \/ RewindTo e = 0).
  { unfold CheckCompatible in He.
    destruct (CheckCompatible_fuel fork_boundary_count c newcfg h)
      as [result|] eqn:Erun; [|discriminate].
    subst result.
    apply (CheckCompatible_fuel_exit _ _ _ _ _ Hh Erun). }
  destruct Hexit as [Hnone|Hzero]; [left | right; exact Hzero].
  split; [exact Hnone|].
  destruct (CheckCompatible_RewindTo_head c newcfg h e Hh He)
    as [[Hlo Hhi] _].
  assert (Hr : is_uint64 (RewindTo e)) by (unfold is_uint64 in *; lia).
  apply (proj2 (CheckCompatible_lowest c newcfg (RewindTo e) Hr)).
  exact Hnone.
Qed.

Lemma rewind_settles_witness :
  exists e, CheckCompatible staircaseStored staircaseNew 100 = Some e
            /\ (CheckCompatible staircaseStored staircaseNew (RewindTo e)
                = None
                \/ RewindTo e = 0).
Proof.
  assert (Hh : is_uint64 100)
    by (unfold is_uint64, uint64_modulus; lia).
  eexists. split; [reflexivity|].
  destruct (rewind_settles staircaseStored staircaseNew 100 _ Hh eq_refl)
    as [[_ Hnone]|Hzero].
  - left. exact Hnone.
  - right. exact Hzero.
Defined.

(** ** Compatibility through a third configuration *)

Lemma checkCompatible_None_checks c newcfg head :
  checkCompatible c newcfg head = None <->
  isForkIncompatible (HomesteadBlock c) (HomesteadBlock newcfg) head = false
  /\ isForkIncompatible (DAOForkBlock c) (DAOForkBlock newcfg) head = false
  /\ IsDAOFork c head
     && negb (Bool.eqb (DAOForkSupport c) (DAOForkSupport newcfg)) = false
  /\ isForkIncompatible (EIP150Block c) (EIP150Block newcfg) head = false
  /\ isForkIncompatible (EIP155Block c) (EIP155Block newcfg) head = false
  /\ isForkIncompatible (EIP158Block c) (EIP158Block newcfg) head = false
  /\ IsEIP158 c head
     && negb (configNumEqual (ChainId c) (ChainId newcfg)) = false
  /\ isForkIncompatible (ByzantiumBlock c) (ByzantiumBlock newcfg) head
     = false.
Proof.
  unfold checkCompatible.
  repeat match goal with
  | |- (if ?cond then _ else _) = None <-> _ =>
      destruct cond;
      [split; [discriminate | intros H; decompose [and] H; congruence]|]
  end.
  split; [intros _; repeat split | reflexivity].
Qed.

Lemma isForkIncompatible_trans (s1 s2 s3 head : option Z) :
  isForkIncompatible s1 s2 head = false ->
  isForkIncompatible s2 s3 head = false ->
  isForkIncompatible s1 s3 head = false.
Proof.
  destruct head as [h|];
    [|intros _ _; unfold isForkIncompatible;
      rewrite !isForked_nil_head; reflexivity].
  destruct s1 as [s1|], s2 as [s2|], s3 as [s3|];
    unfold isForkIncompatible, isForked, configNumEqual;
    cmp_cases; simpl; intros H12 H23;
    first [reflexivity | discriminate | lia].
Qed.

(** X18. Being compatible at a head is transitive (and so, being
    reflexive and symmetric as well, an equivalence): if one pass finds
    no error between [c] and [mid] and none between [mid] and [newcfg],
    it finds none between [c] and [newcfg]. *)
Theorem compatible_trans c mid newcfg head :
  checkCompatible c mid head = None ->
  checkCompatible mid newcfg head = None ->
  checkCompatible c newcfg head = None.
Proof.
  rewrite !checkCompatible_None_checks. unfold IsDAOFork, IsEIP158.
  intros [A1 [A2 [A3 [A4 [A5 [A6 [A7 A8]]]]]]]
         [B1 [B2 [B3 [B4 [B5 [B6 [B7 B8]]]]]]].
  repeat split;
    try (eapply isForkIncompatible_trans; eassumption).
  - rewrite <- (isForked_agree _ _ _ A2) in B3.
    destruct (isForked (DAOForkBlock c) head); [|reflexivity].
    destruct (DAOForkSupport c), (DAOForkSupport mid),
      (DAOForkSupport newcfg); simpl in *; congruence.
  - rewrite <- (isForked_agree _ _ _ A6) in B7.
    destruct (isForked (EIP158Block c) head); [|reflexivity].
    simpl in *. apply negb_false_iff in A7, B7.
    apply configNumEqual_true_iff in A7, B7.
    apply negb_false_iff. apply configNumEqual_true_iff. congruence.
Qed.

Lemma compatible_trans_witness :
  checkCompatible storedAt100 newAt5 (Some 4) = None.
Proof.
  apply (compatible_trans storedAt100 newAt200 newAt5 (Some 4));
    reflexivity.
Defined.

(** ** Gas tables *)

Section GasTablePhases.

Variable GasTableT : Type.
Variables GasTableHomestead GasTableEIP150 GasTableEIP158 : GasTableT.

Hypothesis Homestead_EIP150 : GasTableHomestead <> GasTableEIP150.
Hypothesis Homestead_EIP158 : GasTableHomestead <> GasTableEIP158.
Hypothesis EIP150_EIP158 : GasTableEIP150 <> GasTableEIP158.

(** X7. With three different tables, the gas table never goes back as
    the chain grows: once the EIP158 table applies it applies at every
    later block, and where the Homestead table applies it applies at
    every earlier block; for a nil block number the Homestead table is
    returned whatever the configuration. *)
Theorem GasTable_never_goes_back c h1 h2 :
  h1 <= h2 ->
  (GasTable GasTableHomestead GasTableEIP150 GasTableEIP158 c (Some h1)
   = GasTableEIP158 ->
   GasTable GasTableHomestead GasTableEIP150 GasTableEIP158 c (Some h2)
   = GasTableEIP158)
  /\ (GasTable GasTableHomestead GasTableEIP150 GasTableEIP158 c (Some h2)
      = GasTableHomestead ->
      GasTable GasTableHomestead GasTableEIP150 GasTableEIP158 c (Some h1)
      = GasTableHomestead)
  /\ GasTable GasTableHomestead GasTableEIP150 GasTableEIP158 c None
     = GasTableHomestead.
Proof.
  intros Hle. unfold GasTable, IsEIP158, IsEIP150.
  split; [|split; [|reflexivity]].
  - destruct (isForked (EIP158Block c) (Some h1)) eqn:E1.
    + rewrite (isForked_mono _ h1 h2 Hle E1). reflexivity.
    + destruct (isForked (EIP150Block c) (Some h1)); intros H;
        congruence.
  - destruct (isForked (EIP158Block c) (Some h2)) eqn:E2;
      [intros H; congruence|].
    destruct (isForked (EIP150Block c) (Some h2)) eqn:E3;
      [intros H; congruence|].
    intros _.
    destruct (isForked (EIP158Block c) (Some h1)) eqn:E4;
      [rewrite (isForked_mono _ h1 h2 Hle E4) in E2; discriminate|].
    destruct (isForked (EIP150Block c) (Some h1)) eqn:E5;
      [rewrite (isForked_mono _ h1 h2 Hle E5) in E3; discriminate|].
    reflexivity.
Qed.

End GasTablePhases.

Lemma GasTable_never_goes_back_witness :
  GasTable 0%nat 1%nat 2%nat staircaseStored (Some 25) = 2%nat.
Proof.
  refine (proj1 (GasTable_never_goes_back nat 0%nat 1%nat 2%nat
                   _ _ _ staircaseStored 20 25 _) _).
  - discriminate.
  - discriminate.
  - discriminate.
  - lia.
  - reflexivity.
Defined.

End ParamsMoreTheory.

(** * More properties of the node service *)

Module RueMoreTheory.

Import Params Rue RueMore.

(** ** Engine selection *)

(** X8. The engine is a proof-of-authority one exactly when the chain
    configuration has a proof-of-authority sub-configuration. *)
Theorem proof_of_authority_iff {Database : Type} (ctx : ServiceContext)
  (config : RuehashConfig) (chainConfig : ChainConfig) (db : Database) :
  isProofOfAuthority (fst (CreateConsensusEngine ctx config chainConfig db))
  = true
  <-> Clique chainConfig <> None.
Proof.
  unfold CreateConsensusEngine.
  destruct (Clique chainConfig) as [cliqueConfig|].
  - simpl. split; [discriminate | reflexivity].
  - destruct (Mode_eqb (PowMode config) ModeFake);
      [simpl; split; [discriminate | congruence]|].
    destruct (Mode_eqb (PowMode config) ModeTest);
      [simpl; split; [discriminate | congruence]|].
    destruct (Mode_eqb (PowMode config) ModeShared);
      simpl; split; first [discriminate | congruence].
Qed.

Lemma proof_of_authority_iff_witness :
  isProofOfAuthority
    (fst (CreateConsensusEngine plainContext fakeModeConfig cliqueChain tt))
  = true.
Proof.
  apply (proj2 (proof_of_authority_iff plainContext fakeModeConfig
                  cliqueChain tt)).
  discriminate.
Defined.

(** X9. An engine that [CreateConsensusEngine] makes with [ruehash.New]
    has its thread count at -1 (CPU mining disabled), the cache
    directory resolved by the service context, the dataset directory as
    configured, and comes with no warning and only without a
    proof-of-authority sub-configuration. *)
Theorem ruehash_New_does_not_mine {Database : Type} (ctx : ServiceContext)
  (config : RuehashConfig) (chainConfig : ChainConfig) (db : Database)
  (made : RuehashConfig) (threads : Z) :
  fst (CreateConsensusEngine ctx config chainConfig db)
  = ruehash_New made threads ->
  threads = -1
  /\ CacheDir made = ResolvePath ctx (CacheDir config)
  /\ DatasetDir made = DatasetDir config
  /\ snd (CreateConsensusEngine ctx config chainConfig db) = []
  /\ Clique chainConfig = None.
Proof.
  unfold CreateConsensusEngine.
  destruct (Clique chainConfig) as [cliqueConfig|]; [discriminate|].
  destruct (Mode_eqb (PowMode config) ModeFake); [discriminate|].
  destruct (Mode_eqb (PowMode config) ModeTest); [discriminate|].
  destruct (Mode_eqb (PowMode config) ModeShared); [discriminate|].
  simpl. intros Hmade. injection Hmade as <- <-.
  repeat split.
Qed.

Lemma ruehash_New_does_not_mine_witness :
  exists made threads,
    fst (CreateConsensusEngine plainContext
           (mkRuehashConfig "cache" 2 3 "dataset" 1 2 (ModeOther 9))
           emptyConfig tt)
    = ruehash_New made threads
    /\ threads = -1.
Proof.
  eexists. eexists. split; [reflexivity|].
  apply (ruehash_New_does_not_mine plainContext
           (mkRuehashConfig "cache" 2 3 "dataset" 1 2 (ModeOther 9))
           emptyConfig tt _ _ eq_refl).
Defined.

(** ** Extra data *)

(** X10. [makeExtraData] never returns more than
    [MaximumExtraDataSize] bytes; extra data that is not empty and fits
    is returned as it is; and a warning is logged only when nothing is
    returned. *)
Theorem makeExtraData_fits (defaultExtraData : list Byte.byte)
  (MaximumExtraDataSize : Z) (extra : list Byte.byte) :
  0 <= MaximumExtraDataSize ->
  Z.of_nat
    (List.length
       (fst (makeExtraData defaultExtraData MaximumExtraDataSize extra)))
  <= MaximumExtraDataSize
  /\ (extra <> [] ->
      Z.of_nat (List.length extra) <= MaximumExtraDataSize ->
      makeExtraData defaultExtraData MaximumExtraDataSize extra
      = (extra, []))
  /\ (snd (makeExtraData defaultExtraData MaximumExtraDataSize extra) <> []
      -> fst (makeExtraData defaultExtraData MaximumExtraDataSize extra)
         = []).
Proof.
  intros Hmax. unfold makeExtraData. split; [|split].
  - destruct (Z.of_nat (List.length
                (if Z.of_nat (List.length extra) =? 0
                 then defaultExtraData else extra))
              >? MaximumExtraDataSize) eqn:E; simpl.
    + exact Hmax.
    + rewrite Z.gtb_ltb in E. apply Z.ltb_ge in E. exact E.
  - intros Hne Hfit.
    destruct extra as [|b extra]; [contradiction|].
    replace (Z.of_nat (List.length (b :: extra)) =? 0) with false
      by (symmetry; apply Z.eqb_neq; simpl List.length; lia).
    replace (Z.of_nat (List.length (b :: extra)) >? MaximumExtraDataSize)
      with false
      by (symmetry; rewrite Z.gtb_ltb; apply Z.ltb_ge; exact Hfit).
    reflexivity.
  - destruct (Z.of_nat (List.length
                (if Z.of_nat (List.length extra) =? 0
                 then defaultExtraData else extra))
              >? MaximumExtraDataSize); simpl; [reflexivity|].
    intros H. contradiction H. reflexivity.
Qed.

Lemma makeExtraData_fits_witness :
  makeExtraData [Byte.x01; Byte.x02; Byte.x03] 32 [Byte.xff; Byte.x00]
  = ([Byte.xff; Byte.x00], []).
Proof.
  apply (proj1 (proj2 (makeExtraData_fits [Byte.x01; Byte.x02; Byte.x03]
                         32 [Byte.xff; Byte.x00] ltac:(lia)))).
  - discriminate.
  - simpl. lia.
Defined.

(** ** Peers *)

Lemma int_wrap_small (x : Z) : is_int x -> int_wrap x = x.
Proof.
  unfold is_int, int_min, int_max, int_wrap. intros H.
  rewrite Z.mod_small by lia. lia.
Qed.

(** X11. [Start] starts the protocol manager with the server's limit
    when light serving is off.  When it is on, the number is never
    below half the limit; and for a limit and a count of light peers
    that are not negative it is the limit less the light peers, or half
    the limit if that is more, and so never above the limit. *)
Theorem Start_maxPeers (MaxPeers : Z) (s : Lifecycle) :
  exists maxPeers,
    Start MaxPeers s
    = (Returned None,
       withCalls s
         ([StartBloomHandlers; NewPublicNetAPI (networkId s);
           ProtocolManagerStart maxPeers]
          ++ (if lesServer s then [LesServerStart] else [])))
    /\ (LightServ s <= 0 -> maxPeers = MaxPeers)
    /\ (0 < LightServ s -> Z.quot MaxPeers 2 <= maxPeers)
    /\ (0 < LightServ s -> 0 <= MaxPeers <= int_max ->
        0 <= LightPeers s <= int_max ->
        maxPeers = Z.max (MaxPeers - LightPeers s) (Z.quot MaxPeers 2)
        /\ maxPeers <= MaxPeers).
Proof.
  exists (startMaxPeers MaxPeers (LightServ s) (LightPeers s)).
  split; [reflexivity|]. unfold startMaxPeers.
  destruct (Z.gtb_spec (LightServ s) 0) as [Hon|Hoff].
  - split; [lia|]. split.
    + intros _.
      destruct (Z.ltb_spec (int_wrap (MaxPeers - LightPeers s))
                  (Z.quot MaxPeers 2)); lia.
    + intros _ HM HL.
      rewrite int_wrap_small
        by (unfold is_int, int_min, int_max in *; lia).
      assert (Hhalf : Z.quot MaxPeers 2 <= MaxPeers)
        by (apply Z.quot_le_upper_bound; lia).
      destruct (Z.ltb_spec (MaxPeers - LightPeers s) (Z.quot MaxPeers 2));
        lia.
  - split; [reflexivity|]. split; intros; lia.
Qed.

Lemma Start_maxPeers_witness :
  Start 25 lightServing
  = (Returned None,
     withCalls lightServing
       [StartBloomHandlers; NewPublicNetAPI 1; ProtocolManagerStart 12;
        LesServerStart]).
Proof.
  destruct (Start_maxPeers 25 lightServing)
    as [maxPeers [Hrun [_ [_ Hsplit]]]].
  destruct Hsplit as [Hmax _];
    [reflexivity | unfold int_max; lia | unfold int_max; simpl; lia |].
  rewrite Hrun, Hmax. reflexivity.
Defined.

(** ** Stopping once *)

Lemma shutdownClosed_stays (ops : list LifecycleOp) : forall s,
  shutdownClosed s = true -> shutdownClosed (runOps ops s) = true.
Proof.
  induction ops as [|op ops IH]; intros s Hclosed; [exact Hclosed|].
  destruct op as [MaxPeers|]; simpl; apply IH.
  - exact Hclosed.
  - unfold Stop. simpl. rewrite Hclosed. exact Hclosed.
Qed.

Lemma runOps_keeps_collaborators (ops : list LifecycleOp) : forall s,
  stopDbUpgrade (runOps ops s) = stopDbUpgrade s
  /\ lesServer (runOps ops s) = lesServer s.
Proof.
  induction ops as [|op ops IH]; intros s; [split; reflexivity|].
  destruct op as [MaxPeers|]; simpl.
  - apply (IH (snd (Start MaxPeers s))).
  - destruct (IH (snd (Stop s))) as [Hdb Hles].
    rewrite Hdb, Hles. unfold Stop. simpl.
    destruct (shutdownClosed s); split; reflexivity.
Qed.

(** X12. [Stop] on a service whose shutdown channel is open makes the
    stop calls to the collaborators in order, closes the channel and
    returns nil; after that, whatever [Start] and [Stop] calls follow, a
    further [Stop] makes the same stop calls once more, up to
    [chainDb.Close], and then panics on closing the closed channel. *)
Theorem Stop_only_once (s : Lifecycle) (ops : list LifecycleOp) :
  shutdownClosed s = false ->
  fst (Stop s) = Returned None
  /\ shutdownClosed (snd (Stop s)) = true
  /\ calls (snd (Stop s))
     = calls s ++ stopsInOrder (stopDbUpgrade s) (lesServer s)
       ++ [CloseShutdownChan]
  /\ fst (Stop (runOps ops (snd (Stop s))))
     = Panicked "close of closed channel"
  /\ calls (snd (Stop (runOps ops (snd (Stop s)))))
     = calls (runOps ops (snd (Stop s)))
       ++ stopsInOrder (stopDbUpgrade s) (lesServer s)
  /\ shutdownClosed (snd (Stop (runOps ops (snd (Stop s))))) = true.
Proof.
  intros Hopen.
  assert (Hfirst : fst (Stop s) = Returned None
                   /\ shutdownClosed (snd (Stop s)) = true
                   /\ calls (snd (Stop s))
                      = calls s
                        ++ stopsInOrder (stopDbUpgrade s) (lesServer s)
                        ++ [CloseShutdownChan]).
  { unfold Stop. simpl. rewrite Hopen. simpl.
    split; [reflexivity|]. split; [reflexivity|].
    rewrite <- app_assoc. f_equal.
    destruct (stopDbUpgrade s), (lesServer s); reflexivity. }
  destruct Hfirst as [Hret [Hclosed Hcalls]].
  split; [exact Hret|]. split; [exact Hclosed|]. split; [exact Hcalls|].
  pose proof (shutdownClosed_stays ops _ Hclosed) as Hlater.
  destruct (runOps_keeps_collaborators ops (snd (Stop s))) as [Hdb Hles].
  assert (Hdb0 : stopDbUpgrade (snd (Stop s)) = stopDbUpgrade s)
    by (unfold Stop; simpl; rewrite Hopen; reflexivity).
  assert (Hles0 : lesServer (snd (Stop s)) = lesServer s)
    by (unfold Stop; simpl; rewrite Hopen; reflexivity).
  rewrite Hdb0 in Hdb. rewrite Hles0 in Hles.
  set (s' := runOps ops (snd (Stop s))) in *.
  unfold Stop. simpl. rewrite Hlater, Hdb, Hles. simpl.
  split; [reflexivity|]. split; [|exact Hlater].
  f_equal. destruct (stopDbUpgrade s), (lesServer s); reflexivity.
Qed.

Lemma Stop_only_once_witness :
  fst (Stop (runOps [DoStart 25] (snd (Stop lightServing))))
  = Panicked "close of closed channel"
  /\ calls (snd (Stop (runOps [DoStart 25] (snd (Stop lightServing)))))
     = calls (runOps [DoStart 25] (snd (Stop lightServing)))
       ++ [BloomIndexerClose; BlockchainStop; ProtocolManagerStop;
           LesServerStop; TxPoolStop; MinerStop; EventMuxStop;
           ChainDbClose].
Proof.
  destruct (Stop_only_once lightServing [DoStart 25] eq_refl)
    as [_ [_ [_ [Hpanic [Hcalls _]]]]].
  split; [exact Hpanic | exact Hcalls].
Defined.

(** ** The beneficiary *)

(** The three ways [Ruebase] goes. *)
Lemma Ruebase_cases (s : RueState) :
  (ruebase s <> zeroAddress /\ Ruebase s = ((ruebase s, None), s))
  \/ (ruebase s = zeroAddress
      /\ exists wallet0 wallets account0 accounts,
           Wallets (accountManager s) = wallet0 :: wallets
           /\ Accounts wallet0 = account0 :: accounts
           /\ Ruebase s
              = ((Address account0, None),
                 mkRueState (Address account0) (accountManager s)
                   (events s
                    ++ [CallWallets; CallAccounts;
                        LogInfo "Ruebase automatically configured"
                          (Address account0)])))
  \/ (ruebase s = zeroAddress
      /\ (Wallets (accountManager s) = []
          \/ exists wallet0 wallets,
               Wallets (accountManager s) = wallet0 :: wallets
               /\ Accounts wallet0 = [])
      /\ exists more,
           Ruebase s
           = ((zeroAddress, Some errRuebaseMissing),
              mkRueState zeroAddress (accountManager s)
                (events s ++ more))).
Proof.
  unfold Ruebase.
  destruct (Z.eqb_spec (ruebase s) zeroAddress) as [Hzero|Hset]; simpl.
  - right. rewrite Hzero.
    destruct (Wallets (accountManager s)) as [|wallet0 wallets] eqn:Ew.
    + right. split; [reflexivity|]. split; [left; reflexivity|].
      exists [CallWallets]. reflexivity.
    + destruct (Accounts wallet0) as [|account0 accounts] eqn:Ea.
      * right. split; [reflexivity|]. split.
        -- right. exists wallet0, wallets. split; [reflexivity | exact Ea].
        -- exists [CallWallets; CallAccounts].
           rewrite <- app_assoc. reflexivity.
      * left. split; [reflexivity|].
        exists wallet0, wallets, account0, accounts.
        split; [reflexivity|]. split; [exact Ea|].
        rewrite <- !app_assoc. reflexivity.
  - left. split; [exact Hset | reflexivity].
Qed.

(** What the mining code needs of [Ruebase]. *)
Lemma Ruebase_keeps_manager (s : RueState) :
  accountManager (snd (Ruebase s)) = accountManager s
  /\ (snd (fst (Ruebase s)) = None ->
      ruebase (snd (Ruebase s)) = fst (fst (Ruebase s))).
Proof.
  destruct (Ruebase_cases s)
    as [[Hset Hrun]
       |[[Hzero [w0 [ws [a0 [acs [Hw [Ha Hrun]]]]]]]
        |[Hzero [Hnone [more Hrun]]]]];
    rewrite Hrun; simpl; split; try reflexivity; discriminate.
Qed.

(** X13. [Ruebase] fails exactly when no beneficiary is set and there is
    no wallet or the first wallet has no account; it then returns the
    zero address and leaves the beneficiary unset. *)
Theorem Ruebase_fails_iff (s : RueState) :
  (snd (fst (Ruebase s)) <> None <->
   ruebase s = zeroAddress
   /\ (Wallets (accountManager s) = []
       \/ exists wallet0 wallets,
            Wallets (accountManager s) = wallet0 :: wallets
            /\ Accounts wallet0 = []))
  /\ (snd (fst (Ruebase s)) <> None ->
      fst (Ruebase s) = (zeroAddress, Some errRuebaseMissing)
      /\ ruebase (snd (Ruebase s)) = zeroAddress).
Proof.
  destruct (Ruebase_cases s)
    as [[Hset Hrun]
       |[[Hzero [w0 [ws [a0 [acs [Hw [Ha Hrun]]]]]]]
        |[Hzero [Hnone [more Hrun]]]]];
    rewrite Hrun; simpl; split.
  - split; [intros H; contradiction H; reflexivity|].
    intros [Hzero _]. contradiction.
  - intros H. contradiction H. reflexivity.
  - split; [intros H; contradiction H; reflexivity|].
    intros [_ [Hnil|[w [ws' [Hw' Ha']]]]].
    + rewrite Hnil in Hw. discriminate.
    + rewrite Hw in Hw'. injection Hw' as <- <-.
      rewrite Ha in Ha'. discriminate.
  - intros H. contradiction H. reflexivity.
  - split; [intros _; split; assumption | intros _; discriminate].
  - intros _. split; reflexivity.
Qed.

Lemma Ruebase_fails_iff_witness :
  snd (fst (Ruebase emptyFirstWallet)) <> None.
Proof.
  apply (proj2 (proj1 (Ruebase_fails_iff emptyFirstWallet))).
  split; [reflexivity|].
  right. exists (mkWallet []), [mkWallet [account7]].
  split; reflexivity.
Defined.

(** X14. What [Ruebase] keeps: the account manager is never changed; a
    beneficiary that is set is never replaced; calls are only added to
    those made so far; and when it succeeds the address returned is the
    one the service holds afterwards. *)
Theorem Ruebase_keeps (s : RueState) :
  accountManager (snd (Ruebase s)) = accountManager s
  /\ (ruebase s <> zeroAddress -> ruebase (snd (Ruebase s)) = ruebase s)
  /\ (exists more, events (snd (Ruebase s)) = events s ++ more)
  /\ (snd (fst (Ruebase s)) = None ->
      ruebase (snd (Ruebase s)) = fst (fst (Ruebase s))).
Proof.
  destruct (Ruebase_cases s)
    as [[Hset Hrun]
       |[[Hzero [w0 [ws [a0 [acs [Hw [Ha Hrun]]]]]]]
        |[Hzero [Hnone [more Hrun]]]]];
    rewrite Hrun; simpl.
  - split; [reflexivity|]. split; [reflexivity|]. split; [|reflexivity].
    exists []. symmetry. apply app_nil_r.
  - split; [reflexivity|]. split; [intros H; contradiction|].
    split; [eexists; reflexivity | reflexivity].
  - split; [reflexivity|]. split; [intros H; contradiction|].
    split; [exists more; reflexivity | discriminate].
Qed.

Lemma Ruebase_keeps_witness :
  ruebase (snd (Ruebase explicitBeneficiary)) = 9
  /\ ruebase (snd (Ruebase oneAccount)) = 7.
Proof.
  split.
  - apply (proj1 (proj2 (Ruebase_keeps explicitBeneficiary))).
    discriminate.
  - apply (proj2 (proj2 (proj2 (Ruebase_keeps oneAccount)))).
    reflexivity.
Defined.

(** X15. [SetRuebase] with an address that is not zero overrides what
    was set or found before: [Ruebase] then returns that address and
    asks the account manager nothing; and the miner is told the address.
    With the zero address the beneficiary is unset again: [Ruebase] goes
    to the account manager. *)
Theorem SetRuebase_then_Ruebase {Database : Type} (addr : common_Address)
  (n : Node Database) :
  (addr <> zeroAddress ->
   Ruebase (service (SetRuebase addr n))
   = ((addr, None), service (SetRuebase addr n)))
  /\ (addr = zeroAddress ->
      exists more,
        events (snd (Ruebase (service (SetRuebase addr n))))
        = events (service n) ++ CallWallets :: more)
  /\ minerCalls (SetRuebase addr n)
     = minerCalls n ++ [MinerSetRuebase addr].
Proof.
  split; [|split; [|reflexivity]].
  - intros Hset. unfold SetRuebase. simpl. unfold Ruebase. simpl.
    destruct (Z.eqb_spec addr zeroAddress) as [Heq|_];
      [contradiction | reflexivity].
  - intros ->. unfold SetRuebase, Ruebase. simpl.
    destruct (Wallets (accountManager (service n))) as [|wallet0 wallets];
      simpl; [exists []; reflexivity|].
    destruct (Accounts wallet0) as [|account0 accounts]; simpl;
      rewrite <- ?app_assoc; eexists; reflexivity.
Qed.

Lemma SetRuebase_then_Ruebase_witness :
  fst (Ruebase (service (SetRuebase 5 (powNode oneAccount)))) = (5, None).
Proof.
  rewrite (proj1 (SetRuebase_then_Ruebase 5 (powNode oneAccount))).
  - reflexivity.
  - discriminate.
Defined.

(** ** Mining *)

Section MiningFacts.

Variable Database : Type.
Variable Find : Manager -> Account -> option Wallet * option string.

(** X16. When [StartMining] fails, the miner is not started, the flag
    that accepts transactions is as it was, nothing is authorized, and
    an error is logged.  It fails either because [Ruebase] fails, or,
    with a proof-of-authority engine, because the account manager finds
    no wallet for the beneficiary or reports an error. *)
Theorem StartMining_failure (local : bool) (n : Node Database)
  (msg : string) :
  fst (StartMining Find local n) = Some msg ->
  minerCalls (snd (StartMining Find local n)) = minerCalls n
  /\ acceptTxs (snd (StartMining Find local n)) = acceptTxs n
  /\ authorizeCalls (snd (StartMining Find local n)) = authorizeCalls n
  /\ engine (snd (StartMining Find local n)) = engine n
  /\ (exists line,
        errorLog (snd (StartMining Find local n)) = errorLog n ++ [line])
  /\ ((exists why,
         snd (fst (Ruebase (service n))) = Some why
         /\ msg = ("ruebase missing: " ++ why)%string)
      \/ (exists eb,
            fst (Ruebase (service n)) = (eb, None)
            /\ isProofOfAuthority (engine n) = true
            /\ (fst (Find (accountManager (service n))
                       (mkAccount eb EmptyString)) = None
                \/ snd (Find (accountManager (service n))
                          (mkAccount eb EmptyString)) <> None)
            /\ msg
               = ("signer missing: "
                  ++ showError
                       (snd (Find (accountManager (service n))
                               (mkAccount eb EmptyString))))%string)).
Proof.
  pose proof (proj1 (Ruebase_keeps_manager (service n))) as Hmgr.
  unfold StartMining.
  destruct (Ruebase (service n)) as [[eb err] service1] eqn:Erun.
  simpl in Hmgr. destruct err as [why|]; simpl.
  - intros Hmsg. injection Hmsg as <-.
    repeat split; try (eexists; reflexivity).
    left. exists why. split; reflexivity.
  - destruct (engine n) as [cliqueConfig db| | | |made threads] eqn:Eng;
      simpl; try (destruct local; discriminate).
    rewrite Hmgr.
    destruct (Find (accountManager (service n)) (mkAccount eb EmptyString))
      as [[wallet|] [err1|]] eqn:Efind; simpl;
      try (destruct local; discriminate);
      intros Hmsg; injection Hmsg as <-;
      (split; [reflexivity|]); (split; [reflexivity|]);
      (split; [reflexivity|]); (split; [reflexivity|]);
      (split; [eexists; reflexivity|]);
      right; exists eb; rewrite Efind;
      (split; [reflexivity|]); (split; [reflexivity|]);
      (split; [|reflexivity]);
      first [ left; reflexivity | right; discriminate ].
Qed.

(** X17. When [StartMining] succeeds, the miner is started, once, with
    the address [Ruebase] returned, which the service holds afterwards;
    the flag that accepts transactions is set to 1 if mining is local
    and is as it was otherwise; and with a proof-of-authority engine the
    engine is authorized with that address and the wallet the account
    manager found for it, with any other engine nothing is. *)
Theorem StartMining_success (local : bool) (n : Node Database) :
  fst (StartMining Find local n) = None ->
  exists eb,
    fst (Ruebase (service n)) = (eb, None)
    /\ service (snd (StartMining Find local n)) = snd (Ruebase (service n))
    /\ ruebase (service (snd (StartMining Find local n))) = eb
    /\ minerCalls (snd (StartMining Find local n))
       = minerCalls n ++ [MinerStart eb]
    /\ acceptTxs (snd (StartMining Find local n))
       = (if local then 1 else acceptTxs n)
    /\ errorLog (snd (StartMining Find local n)) = errorLog n
    /\ (if isProofOfAuthority (engine n)
        then exists wallet,
               Find (accountManager (service n)) (mkAccount eb EmptyString)
               = (Some wallet, None)
               /\ authorizeCalls (snd (StartMining Find local n))
                  = authorizeCalls n ++ [(eb, wallet)]
        else authorizeCalls (snd (StartMining Find local n))
             = authorizeCalls n).
Proof.
  pose proof (Ruebase_keeps_manager (service n)) as [Hmgr Hheld].
  unfold StartMining.
  destruct (Ruebase (service n)) as [[eb err] service1] eqn:Erun.
  simpl in Hmgr, Hheld. destruct err as [why|]; simpl; [discriminate|].
  specialize (Hheld eq_refl).
  destruct (engine n) as [cliqueConfig db| | | |made threads] eqn:Eng;
    simpl.
  2-5: intros _; exists eb; destruct local; simpl; repeat split;
       assumption.
  rewrite Hmgr.
  destruct (Find (accountManager (service n)) (mkAccount eb EmptyString))
    as [[wallet|] [err1|]] eqn:Efind; simpl; try discriminate.
  intros _. exists eb.
  destruct local; simpl; repeat split; try assumption;
    exists wallet; (split; [exact Efind | reflexivity]).
Qed.

End MiningFacts.

Lemma StartMining_failure_witness :
  fst (StartMining findSeven true (cliqueNode explicitBeneficiary))
  = Some "signer missing: unknown account"%string
  /\ minerCalls
       (snd (StartMining findSeven true (cliqueNode explicitBeneficiary)))
     = [].
Proof.
  split; [reflexivity|].
  apply (StartMining_failure unit findSeven true
           (cliqueNode explicitBeneficiary)
           "signer missing: unknown account" eq_refl).
Defined.

Lemma StartMining_success_witness :
  exists eb,
    fst (Ruebase oneAccount) = (eb, None)
    /\ minerCalls (snd (StartMining findSeven true (cliqueNode oneAccount)))
       = [MinerStart eb].
Proof.
  destruct (StartMining_success unit findSeven true (cliqueNode oneAccount)
              eq_refl) as [eb [Hrun [_ [_ [Hminer _]]]]].
  exists eb. split; [exact Hrun | exact Hminer].
Defined.

End RueMoreTheory.
